(** * Commit-reveal giveaway: a shallow embedding of the winner selection

    The repository holds two implementations of one protocol:
    - [runGiveaway], the handler of the [GiveawayForm] component, and
    - [selectWinner] / [verifyResult], the stand-alone library functions.

    Both hash with SHA-256 through [crypto.subtle.digest], render the digest
    as lowercase hex, and pick [parseInt(hex.slice(0, 8), 16) % length].
    The platform functions they call (TextEncoder, SHA-256, Number#toString,
    parseInt, Array#sort, Array#join, JSON.parse) are embedded first, then the
    two implementations, then the properties.

    Strings are sequences of code units below 256; every string the protocol
    itself produces (hex digests, separators) lies in that range. *)

From Stdlib Require Import ZArith List String Ascii Bool Lia.
From Stdlib Require Import Permutation Sorted.
Import ListNotations.

Local Open Scope string_scope.
Local Open Scope list_scope.
Local Open Scope Z_scope.

(* ------------------------------------------------------------------ *)
(** ** SHA-256 (FIPS 180-4), on bytes held as [Z] in [0, 256)           *)
(* ------------------------------------------------------------------ *)
Module SHA256.

Definition wrap32 (x : Z) : Z := x mod 2 ^ 32.

Definition add32 (x y : Z) : Z := wrap32 (x + y).

Definition rotr (n x : Z) : Z :=
  Z.lor (Z.shiftr x n) (wrap32 (Z.shiftl x (32 - n))).

Definition not32 (x : Z) : Z := Z.lxor x (2 ^ 32 - 1).

Definition Ch (x y z : Z) : Z := Z.lxor (Z.land x y) (Z.land (not32 x) z).

Definition Maj (x y z : Z) : Z :=
  Z.lxor (Z.lxor (Z.land x y) (Z.land x z)) (Z.land y z).

Definition bsig0 (x : Z) : Z := Z.lxor (Z.lxor (rotr 2 x) (rotr 13 x)) (rotr 22 x).
Definition bsig1 (x : Z) : Z := Z.lxor (Z.lxor (rotr 6 x) (rotr 11 x)) (rotr 25 x).
Definition ssig0 (x : Z) : Z := Z.lxor (Z.lxor (rotr 7 x) (rotr 18 x)) (Z.shiftr x 3).
Definition ssig1 (x : Z) : Z := Z.lxor (Z.lxor (rotr 17 x) (rotr 19 x)) (Z.shiftr x 10).

(** The round constants and the initial state are defined as the standard
    defines them: the first 32 fractional bits of the cube (resp. square)
    roots of the first 64 (resp. 8) primes. *)
Definition is_prime (n : nat) : bool :=
  forallb (fun d => negb (Nat.eqb (n mod d) 0)) (seq 2 (n - 2)).

Definition primes64 : list Z :=
  Eval vm_compute in map Z.of_nat (filter is_prime (seq 2 310)).

(** Largest [r] in [[lo, lo + 2^k)] with [r^3 <= n], by bisection. *)
Fixpoint cbrt_bits (k : nat) (lo n : Z) : Z :=
  match k with
  | O => lo
  | S k' =>
      let mid := lo + 2 ^ Z.of_nat k' in
      if mid * mid * mid <=? n then cbrt_bits k' mid n else cbrt_bits k' lo n
  end.

Definition K : list Z :=
  Eval vm_compute in map (fun p => wrap32 (cbrt_bits 36 0 (p * 2 ^ 96))) primes64.

Definition H0 : list Z :=
  Eval vm_compute in map (fun p => wrap32 (Z.sqrt (p * 2 ^ 64))) (firstn 8 primes64).

(** Padding: the byte 0x80, zero bytes up to 56 modulo 64, then the bit
    length as a 64-bit big-endian integer. *)
Definition be_bytes (n : nat) (x : Z) : list Z :=
  map (fun i => Z.shiftr x (8 * Z.of_nat i) mod 256) (rev (seq 0 n)).

Definition pad (msg : list Z) : list Z :=
  let len := Z.of_nat (List.length msg) in
  let zeros := Z.to_nat ((55 - len) mod 64) in
  msg ++ [128] ++ repeat 0 zeros ++ be_bytes 8 (8 * len).

Fixpoint be_words (fuel : nat) (bs : list Z) : list Z :=
  match fuel, bs with
  | S f, b0 :: b1 :: b2 :: b3 :: rest =>
      (((b0 * 256 + b1) * 256 + b2) * 256 + b3) :: be_words f rest
  | _, _ => []
  end.

(** The message schedule, kept as a sliding window of sixteen words. *)
Fixpoint schedule (n : nat) (win : list Z) : list Z :=
  match n, win with
  | S n', w0 :: rest =>
      let w1 := nth 0 rest 0 in
      let w9 := nth 8 rest 0 in
      let w14 := nth 13 rest 0 in
      let w16 := add32 (add32 (add32 (ssig1 w14) w9) (ssig0 w1)) w0 in
      w0 :: schedule n' (rest ++ [w16])
  | _, _ => []
  end.

Record regs := Regs { ra : Z; rb : Z; rc : Z; rd : Z; re : Z; rf : Z; rg : Z; rh : Z }.

Definition round (s : regs) (kw : Z * Z) : regs :=
  let (k, w) := kw in
  let t1 := add32 (add32 (add32 (add32 (rh s) (bsig1 (re s))) (Ch (re s) (rf s) (rg s))) k) w in
  let t2 := add32 (bsig0 (ra s)) (Maj (ra s) (rb s) (rc s)) in
  Regs (add32 t1 t2) (ra s) (rb s) (rc s) (add32 (rd s) t1) (re s) (rf s) (rg s).

Definition compress (h : regs) (block : list Z) : regs :=
  let w := schedule 64 (be_words 16 block) in
  let s := fold_left round (combine K w) h in
  Regs (add32 (ra h) (ra s)) (add32 (rb h) (rb s)) (add32 (rc h) (rc s))
       (add32 (rd h) (rd s)) (add32 (re h) (re s)) (add32 (rf h) (rf s))
       (add32 (rg h) (rg s)) (add32 (rh h) (rh s)).

Fixpoint blocks (fuel : nat) (h : regs) (bs : list Z) : regs :=
  match fuel with
  | O => h
  | S f =>
      match bs with
      | [] => h
      | _ => blocks f (compress h (firstn 64 bs)) (skipn 64 bs)
      end
  end.

Definition init : regs :=
  Regs (nth 0 H0 0) (nth 1 H0 0) (nth 2 H0 0) (nth 3 H0 0)
       (nth 4 H0 0) (nth 5 H0 0) (nth 6 H0 0) (nth 7 H0 0).

Definition regs_words (s : regs) : list Z :=
  [ra s; rb s; rc s; rd s; re s; rf s; rg s; rh s].

(** The digest: thirty-two bytes. *)
Definition digest (msg : list Z) : list Z :=
  let p := pad msg in
  flat_map (be_bytes 4) (regs_words (blocks (List.length p) init p)).

End SHA256.

(* ------------------------------------------------------------------ *)
(** ** The platform functions the two implementations call              *)
(* ------------------------------------------------------------------ *)
Module JS.

(** A [number] that is an integer or [NaN].  A value that may be
    [undefined] (a missing array element or object property) is an [option],
    with [None] for [undefined]. *)
Inductive number := NaN | Int (n : Z).

(** The code unit of a character *)
Definition code (c : ascii) : Z := Z.of_N (N_of_ascii c).

(** [new TextEncoder().encode(s)]: UTF-8, one or two bytes per code unit
    below 256. *)
Definition utf8 (c : ascii) : list Z :=
  let n := code c in
  if n <? 128 then [n] else [192 + n / 64; 128 + n mod 64].

Fixpoint encode (s : string) : list Z :=
  match s with
  | EmptyString => []
  | String c rest => utf8 c ++ encode rest
  end.

(** A digit below sixteen as a character *)
Definition digit_char (d : Z) : ascii :=
  match String.get (Z.to_nat d) "0123456789abcdef" with
  | Some c => c
  | None => "0"%char
  end.

(** The digits of [n >= 0] in front of [acc], least significant first *)
Fixpoint digits (fuel : nat) (radix n : Z) (acc : string) : string :=
  match fuel with
  | O => acc
  | S f =>
      let acc' := String (digit_char (n mod radix)) acc in
      if n / radix =? 0 then acc' else digits f radix (n / radix) acc'
  end.

(** [n.toString(radix)] for [2 <= radix <= 16] and an integer [n] that a
    JavaScript number holds exactly (at most 2^53 in size), as bytes and
    clock readings are.  Beyond that range JavaScript prints the digits of
    the nearest number it can hold, not those of [n]. *)
Definition toString (radix n : Z) : string :=
  let body := digits (S (Z.to_nat (Z.log2 (Z.abs n)))) radix (Z.abs n) "" in
  if n <? 0 then String "-"%char body else body.

(** [n] characters taken from [rest], then from [pad] over and over *)
Fixpoint fill (n : nat) (pad rest : string) : string :=
  match n with
  | O => ""
  | S n' =>
      match rest, pad with
      | String c r, _ => String c (fill n' pad r)
      | EmptyString, String c r => String c (fill n' pad r)
      | EmptyString, EmptyString => ""
      end
  end.

(** [s.padStart(target, pad)] *)
Definition padStart (target : nat) (pad s : string) : string :=
  String.append (fill (target - String.length s) pad pad) s.

(** [xs.join(sep)] on an array of strings *)
Definition join (sep : string) (xs : list string) : string := String.concat sep xs.

(** [s.slice(b, e)] for [0 <= b <= e] *)
Definition slice (b e : nat) (s : string) : string := String.substring b (e - b) s.

(** White space and line terminators among the code units below 256 *)
Definition is_space (c : ascii) : bool :=
  existsb (Z.eqb (code c)) [9; 10; 11; 12; 13; 32; 160].

(** [s] without its leading white space *)
Fixpoint skip_space (s : string) : string :=
  match s with
  | String c rest => if is_space c then skip_space rest else s
  | EmptyString => s
  end.

(** The value of a hexadecimal digit of either case *)
Definition hex_value (c : ascii) : option Z :=
  let n := code c in
  if (48 <=? n) && (n <=? 57) then Some (n - 48)
  else if (97 <=? n) && (n <=? 102) then Some (n - 87)
  else if (65 <=? n) && (n <=? 70) then Some (n - 55)
  else None.

(** The value of the longest run of hexadecimal digits that [s] starts
    with, continuing [acc]; [NaN] when there is no digit at all *)
Fixpoint hex_run (s : string) (acc : number) : number :=
  match s with
  | String c rest =>
      match hex_value c with
      | Some d => hex_run rest (Int (16 * match acc with Int a => a | NaN => 0 end + d))
      | None => acc
      end
  | EmptyString => acc
  end.

(** [s] without a leading [0x] or [0X] *)
Definition strip_0x (s : string) : string :=
  match s with
  | String c0 (String c1 rest) =>
      if (code c0 =? 48) && ((code c1 =? 120) || (code c1 =? 88)) then rest else s
  | _ => s
  end.

(** [parseInt(s, 16)]: leading white space, a sign, an optional [0x], then
    the longest run of hexadecimal digits; [NaN] when that run is empty.  The
    value is exact below 2^53; both callers pass eight characters. *)
Definition parseInt16 (s : string) : number :=
  let s1 := skip_space s in
  let (sign, s2) :=
    match s1 with
    | String c rest =>
        if code c =? 45 then (-1, rest)
        else if code c =? 43 then (1, rest)
        else (1, s1)
    | EmptyString => (1, s1)
    end in
  match hex_run (strip_0x s2) NaN with
  | Int v => Int (sign * v)
  | NaN => NaN
  end.

(** [a % n] where [n] is an array length *)
Definition rem (a : number) (n : nat) : number :=
  match a, n with
  | Int x, S _ => Int (Z.rem x (Z.of_nat n))
  | _, _ => NaN
  end.

(** [xs[i]]: [None] is [undefined] *)
Definition index {A : Type} (xs : list A) (i : number) : option A :=
  match i with
  | Int k => if k <? 0 then None else nth_error xs (Z.to_nat k)
  | NaN => None
  end.

(** [xs.find(p)] is [List.find]; [xs.sort()] on strings orders them by code
    units, and since equal strings are indistinguishable the result is the
    one sorted arrangement of the elements. *)
Fixpoint insert (x : string) (xs : list string) : list string :=
  match xs with
  | [] => [x]
  | y :: rest => if String.leb x y then x :: xs else y :: insert x rest
  end.

Fixpoint sort (xs : list string) : list string :=
  match xs with
  | [] => []
  | x :: rest => insert x (sort rest)
  end.

(** Truthiness of a string-valued property that may be missing *)
Definition truthy (v : option string) : bool :=
  match v with
  | Some s => negb (String.eqb s "")
  | None => false
  end.

(** Exceptions, and the completion of a callback *)
Inductive exn := SyntaxError | TypeError.

Inductive completion (A : Type) :=
| Normal (a : A)
| Throw (e : exn).
Arguments Normal {A} a.
Arguments Throw {A} e.

(** What [JSON.parse(new TextDecoder().decode(msg.payload))] makes of an
    inbound message: no payload at all, a [SyntaxError], the value [null],
    or an object of a shape declared for the topic.  A payload that parses
    to anything else (a number, a string, an object with other keys) has no
    case here: the collections below hold records of the declared shapes,
    and runs in which such a payload is delivered are not covered. *)
Inductive inbound (A : Type) :=
| NoPayload
| Unparsable
| ParsedNull
| Parsed (data : A).
Arguments NoPayload {A}.
Arguments Unparsable {A}.
Arguments ParsedNull {A}.
Arguments Parsed {A} data.

(** [JSON.stringify] of a string: quoted, with the quote, the backslash and
    the control characters escaped. *)
Definition quote : ascii := ascii_of_nat 34.
Definition backslash : ascii := ascii_of_nat 92.

Definition escape (c : ascii) : string :=
  let n := code c in
  if n =? 34 then String backslash (String quote "")
  else if n =? 92 then String backslash (String backslash "")
  else if n =? 8 then String backslash "b"
  else if n =? 9 then String backslash "t"
  else if n =? 10 then String backslash "n"
  else if n =? 12 then String backslash "f"
  else if n =? 13 then String backslash "r"
  else if n <? 32 then String backslash (String.append "u" (padStart 4 "0" (toString 16 n)))
  else String c "".

Fixpoint escape_all (s : string) : string :=
  match s with
  | EmptyString => ""
  | String c rest => String.append (escape c) (escape_all rest)
  end.

Definition stringify_string (s : string) : string :=
  String quote (String.append (escape_all s) (String quote "")).

(** [JSON.stringify] of an object given as its (key, serialised value)
    pairs in insertion order, and of an array of serialised elements *)
Definition stringify_object (fields : list (string * string)) : string :=
  String.append "{"
    (String.append
       (join "," (map (fun kv => String.append (stringify_string (fst kv))
                                   (String.append ":" (snd kv))) fields))
       "}").

Definition stringify_array (items : list string) : string :=
  String.append "[" (String.append (join "," items) "]").

End JS.

(* ------------------------------------------------------------------ *)
(** ** What both implementations share                                  *)
(* ------------------------------------------------------------------ *)

(** [App.tsx]: the published result.  [winner] is declared a string; it is
    [undefined] ([None]) when the index it was read at is [NaN]. *)
Record GiveawayResult := mkResult {
  winner : option string;
  timestamp : Z;
  participants : list string;
  randomSeed : string;
  verificationHash : string
}.

(** [hashArray.map(b => b.toString(16).padStart(2, '0')).join('')] *)
Definition hex (hashArray : list Z) : string :=
  JS.join "" (map (fun b => JS.padStart 2 "0" (JS.toString 16 b)) hashArray).

(** The body shared by [generateCommitment], [hashSecret], [hashParticipants]
    and [generateVerificationHash]: encode, digest with SHA-256, render. *)
Definition sha256_hex (data : string) : string :=
  hex (SHA256.digest (JS.encode data)).

(** [a === b] on values that are a string or [undefined] *)
Definition strict_eq (a b : option string) : bool :=
  match a, b with
  | Some x, Some y => String.eqb x y
  | None, None => true
  | _, _ => false
  end.

(** A subscription callback run on each delivered message in turn; a
    callback that throws leaves the collection as it was. *)
Definition deliver {A M : Type} (callback : list A -> M -> JS.completion (list A))
    (store : list A) (inbox : list M) : list A :=
  fold_left (fun st m => match callback st m with
                         | JS.Normal st' => st'
                         | JS.Throw _ => st
                         end) inbox store.

(* ------------------------------------------------------------------ *)
(** ** The library: [selectWinner] and [verifyResult]                   *)
(* ------------------------------------------------------------------ *)
Module Library.

Record CommitMessage := mkCommit {
  cm_participantId : string;
  cm_commitment : string;
  cm_timestamp : Z
}.

Record RevealMessage := mkReveal {
  rm_participantId : string;
  rm_secret : string;
  rm_timestamp : Z
}.

(** Commitments and reveals travel on the one [CONTENT_TOPIC]. *)
Inductive wire :=
| CommitData (c : CommitMessage)
| RevealData (r : RevealMessage).

(** [data.commitment] and [data.secret] *)
Definition commitment_of (data : wire) : option string :=
  match data with
  | CommitData c => Some (cm_commitment c)
  | RevealData _ => None
  end.

Definition secret_of (data : wire) : option string :=
  match data with
  | CommitData _ => None
  | RevealData r => Some (rm_secret r)
  end.

Definition hashSecret (secret : string) : string := sha256_hex secret.

(** [generateSecret]: [array] is the [Uint8Array(32)] as
    [crypto.getRandomValues] has filled it. *)
Definition generateSecret (array : list Z) : string :=
  JS.join "" (map (fun byte => JS.padStart 2 "0" (JS.toString 16 byte)) array).

Definition verifyReveals (commits : list CommitMessage) (reveals : list RevealMessage)
  : list RevealMessage :=
  fold_left
    (fun valid reveal =>
       match find (fun c => String.eqb (cm_participantId c) (rm_participantId reveal)) commits with
       | None => valid
       | Some commit =>
           let revealHash := hashSecret (rm_secret reveal) in
           if String.eqb revealHash (cm_commitment commit)
           then valid ++ [reveal]
           else valid
       end)
    reveals [].

Definition hashParticipants (participants : list string) (seed : string) : string :=
  let data := String.append (JS.join "|" participants) (String.append "|" seed) in
  sha256_hex data.

(** [JSON.stringify] of stored messages that carry exactly the three
    declared keys, in the order in which this program builds its own
    messages, and a timestamp that a JavaScript number holds exactly.  For a
    delivered object with further keys or another key order
    [JSON.stringify] follows that object instead; only the shape of the hash
    taken over this text, and the equality of two runs that store the same
    messages, are drawn from it below. *)
Definition stringify_commits (commits : list CommitMessage) : string :=
  JS.stringify_array
    (map (fun c => JS.stringify_object
                     [("participantId", JS.stringify_string (cm_participantId c));
                      ("commitment", JS.stringify_string (cm_commitment c));
                      ("timestamp", JS.toString 10 (cm_timestamp c))]) commits).

Definition stringify_reveals (reveals : list RevealMessage) : string :=
  JS.stringify_array
    (map (fun r => JS.stringify_object
                     [("participantId", JS.stringify_string (rm_participantId r));
                      ("secret", JS.stringify_string (rm_secret r));
                      ("timestamp", JS.toString 10 (rm_timestamp r))]) reveals).

(** [now] is the reading of [Date.now()] inside the function; an
    [undefined] winner joins as the empty string. *)
Definition generateVerificationHash (participants : list string) (winner : option string)
    (seed organizer : string) (commits : list CommitMessage)
    (reveals : list RevealMessage) (now : Z) : string :=
  let data :=
    JS.join "::"
      [JS.join "|" participants;
       match winner with Some w => w | None => "" end;
       seed;
       organizer;
       stringify_commits commits;
       stringify_reveals reveals;
       JS.toString 10 now] in
  sha256_hex data.

(** Nothing in the body can throw on a well-typed result, so the [catch]
    branch is not reached. *)
Definition verifyResult (result : GiveawayResult) (organizerAddress : string) : bool :=
  let participantsHash := hashParticipants (participants result) (randomSeed result) in
  let expectedIndex :=
    JS.rem (JS.parseInt16 (JS.slice 0 8 participantsHash))
           (List.length (participants result)) in
  let expectedWinner := JS.index (participants result) expectedIndex in
  strict_eq expectedWinner (winner result).

(** [try { body } catch (e) { console.error(...) }] around an update of a
    collection: on an exception the collection is left as it was. *)
Definition try_catch {A : Type} (fallback : A) (body : JS.completion A) : JS.completion A :=
  match body with
  | JS.Normal a => JS.Normal a
  | JS.Throw _ => JS.Normal fallback
  end.

(** [commits.push(data as CommitMessage)]: the cast checks nothing; on the
    shapes of [wire] the guard before it is only passed by a commitment. *)
Definition push_commit (commits : list CommitMessage) (data : wire) : list CommitMessage :=
  match data with
  | CommitData c => commits ++ [c]
  | RevealData _ => commits
  end.

Definition push_reveal (reveals : list RevealMessage) (data : wire) : list RevealMessage :=
  match data with
  | RevealData r => reveals ++ [r]
  | CommitData _ => reveals
  end.

(** The body of the [try] in the callback of the commit phase:
    [JSON.parse], then the test on [data.commitment] and [data.secret]. *)
Definition commit_try (commits : list CommitMessage) (message : JS.inbound wire)
  : JS.completion (list CommitMessage) :=
  match message with
  | JS.NoPayload => JS.Normal commits
  | JS.Unparsable => JS.Throw JS.SyntaxError
  | JS.ParsedNull => JS.Throw JS.TypeError
  | JS.Parsed data =>
      if JS.truthy (commitment_of data) && negb (JS.truthy (secret_of data))
      then JS.Normal (push_commit commits data)
      else JS.Normal commits
  end.

(** The callback of the commit phase: return at once without a payload,
    else run the body under [try]. *)
Definition on_commit (commits : list CommitMessage) (message : JS.inbound wire)
  : JS.completion (list CommitMessage) :=
  match message with
  | JS.NoPayload => JS.Normal commits
  | _ => try_catch commits (commit_try commits message)
  end.

(** The same for the reveal phase, with the test on [data.secret]. *)
Definition reveal_try (reveals : list RevealMessage) (message : JS.inbound wire)
  : JS.completion (list RevealMessage) :=
  match message with
  | JS.NoPayload => JS.Normal reveals
  | JS.Unparsable => JS.Throw JS.SyntaxError
  | JS.ParsedNull => JS.Throw JS.TypeError
  | JS.Parsed data =>
      if JS.truthy (secret_of data)
      then JS.Normal (push_reveal reveals data)
      else JS.Normal reveals
  end.

Definition on_reveal (reveals : list RevealMessage) (message : JS.inbound wire)
  : JS.completion (list RevealMessage) :=
  match message with
  | JS.NoPayload => JS.Normal reveals
  | _ => try_catch reveals (reveal_try reveals message)
  end.

(** What a run takes from outside: the secret drawn by [generateSecret],
    the readings of the clock, and the messages each of the two callbacks
    has been handed when the reveal window closes.  The arrays are taken as
    they stand at that moment: no message is delivered while the reveals are
    being verified. *)
Record World := mkWorld {
  ourSecret : string;
  now_commit : Z;
  heard_commit : list (JS.inbound wire);
  now_reveal : Z;
  heard_reveal : list (JS.inbound wire);
  now_hash : Z;
  now_result : Z
}.

Definition collected_commits (organizerAddress : string) (w : World) : list CommitMessage :=
  let ourCommitment := hashSecret (ourSecret w) in
  let commitMessage := mkCommit organizerAddress ourCommitment (now_commit w) in
  deliver on_commit [commitMessage] (heard_commit w).

Definition collected_reveals (organizerAddress : string) (w : World) : list RevealMessage :=
  let revealMessage := mkReveal organizerAddress (ourSecret w) (now_reveal w) in
  deliver on_reveal [revealMessage] (heard_reveal w).

Definition combinedEntropy (validReveals : list RevealMessage) : string :=
  JS.join "|" (map rm_secret validReveals).

Definition winnerIndex (participants : list string) (finalSeed : string) : JS.number :=
  let participantsHash := hashParticipants participants finalSeed in
  JS.rem (JS.parseInt16 (JS.slice 0 8 participantsHash)) (List.length participants).

Definition selectWinner (participants : list string) (organizerAddress : string) (w : World)
  : GiveawayResult :=
  let commits := collected_commits organizerAddress w in
  let reveals := collected_reveals organizerAddress w in
  let validReveals := verifyReveals commits reveals in
  let finalSeed := hashSecret (combinedEntropy validReveals) in
  let winnerIndex := winnerIndex participants finalSeed in
  let winner := JS.index participants winnerIndex in
  let verificationHash :=
    generateVerificationHash participants winner finalSeed organizerAddress
      commits validReveals (now_hash w) in
  mkResult winner (now_result w) participants finalSeed verificationHash.

End Library.

(* ------------------------------------------------------------------ *)
(** ** The form: [runGiveaway]                                          *)
(* ------------------------------------------------------------------ *)
Module Form.

Record Commitment := mkCommitment {
  c_address : string;
  c_commitment : string;
  c_timestamp : Z
}.

Record Reveal := mkReveal {
  r_address : string;
  r_secret : string;
  r_timestamp : Z
}.

Definition generateCommitment (secret : string) : string := sha256_hex secret.

(** [s.trim()] and [s.split('\n')] *)
Fixpoint trim_end (s : string) : string :=
  match s with
  | EmptyString => ""
  | String c rest =>
      match trim_end rest with
      | EmptyString => if JS.is_space c then "" else String c ""
      | kept => String c kept
      end
  end.

Definition trim (s : string) : string := trim_end (JS.skip_space s).

Fixpoint split_lines (s : string) : list string :=
  match s with
  | EmptyString => [""]
  | String c rest =>
      if JS.code c =? 10 then "" :: split_lines rest
      else match split_lines rest with
           | line :: more => String c line :: more
           | [] => [String c ""]
           end
  end.

(** The callback on the commit topic: no [try], so a payload that does
    not parse, or parses to [null], throws out of the callback. *)
Definition on_commit (address : string) (commitments : list Commitment)
    (msg : JS.inbound Commitment) : JS.completion (list Commitment) :=
  match msg with
  | JS.NoPayload => JS.Normal commitments
  | JS.Unparsable => JS.Throw JS.SyntaxError
  | JS.ParsedNull => JS.Throw JS.TypeError
  | JS.Parsed data =>
      if negb (String.eqb (c_address data) address)
      then JS.Normal (commitments ++ [data])
      else JS.Normal commitments
  end.

(** The callback on the reveal topic. *)
Definition on_reveal (address : string) (reveals : list Reveal)
    (msg : JS.inbound Reveal) : JS.completion (list Reveal) :=
  match msg with
  | JS.NoPayload => JS.Normal reveals
  | JS.Unparsable => JS.Throw JS.SyntaxError
  | JS.ParsedNull => JS.Throw JS.TypeError
  | JS.Parsed data =>
      if negb (String.eqb (r_address data) address)
      then JS.Normal (reveals ++ [data])
      else JS.Normal reveals
  end.

(** What a run takes from outside: the secret from [crypto.randomUUID()],
    the readings of the clock, and the messages each of the two callbacks
    has been handed when the reveal window closes.  The arrays are taken as
    they stand at that moment, and the transport is taken to work. *)
Record World := mkWorld {
  secret : string;
  now_commit : Z;
  heard_commit : list (JS.inbound Commitment);
  now_reveal : Z;
  heard_reveal : list (JS.inbound Reveal);
  now_result : Z
}.

Definition collected_commitments (address : string) (w : World) : list Commitment :=
  let commitment := generateCommitment (secret w) in
  let commitMsg := mkCommitment address commitment (now_commit w) in
  deliver (on_commit address) [commitMsg] (heard_commit w).

Definition collected_reveals (address : string) (w : World) : list Reveal :=
  let revealMsg := mkReveal address (secret w) (now_reveal w) in
  deliver (on_reveal address) [revealMsg] (heard_reveal w).

(** The loop under the comment: Verify reveals match commitments *)
Definition validReveals (commitments : list Commitment) (reveals : list Reveal) : list Reveal :=
  fold_left
    (fun valid reveal =>
       let expectedCommitment := generateCommitment (r_secret reveal) in
       match find (fun c => String.eqb (c_address c) (r_address reveal)
                            && String.eqb (c_commitment c) expectedCommitment) commitments with
       | Some matchingCommit => valid ++ [reveal]
       | None => valid
       end)
    reveals [].

(** Under the comment: Combine entropy *)
Definition combinedEntropy (valid : list Reveal) : string :=
  JS.join "" (JS.sort (map r_secret valid)).

(** Under the comment: Select winner *)
Definition winnerIndex (participantList : list string) (finalHash : string) : JS.number :=
  let hashNum := JS.parseInt16 (JS.slice 0 8 finalHash) in
  JS.rem hashNum (List.length participantList).

Inductive outcome :=
| AddParticipantsFirst
| NoValidParticipants
| Produced (result : GiveawayResult).

Definition participantList (participants : string) : list string :=
  filter (fun p => (0 <? String.length p)%nat) (map trim (split_lines participants)).

(** The run once the participant list has passed both guards. *)
Definition draw (participantList : list string) (address : string) (w : World)
  : GiveawayResult :=
  let commitments := collected_commitments address w in
  let reveals := collected_reveals address w in
  let valid := validReveals commitments reveals in
  let finalHash := generateCommitment (combinedEntropy valid) in
  let winnerIndex := winnerIndex participantList finalHash in
  let winner := JS.index participantList winnerIndex in
  mkResult winner (now_result w) participantList finalHash finalHash.

Definition runGiveaway (participants : string) (address : string) (w : World) : outcome :=
  if String.eqb (trim participants) "" then AddParticipantsFirst
  else
    let participantList := participantList participants in
    if (List.length participantList =? 0)%nat then NoValidParticipants
    else Produced (draw participantList address w).

End Form.

(* ------------------------------------------------------------------ *)
(** ** The derivation as the specification words it                     *)
(* ------------------------------------------------------------------ *)
Module Spec.

(** The first four bytes of a digest read as a big-endian unsigned
    integer *)
Definition firstFourBytesAsUnsignedInt (digest : list Z) : Z :=
  fold_left (fun acc b => acc * 256 + b) (firstn 4 digest) 0.

(** The participants digest: the hash of the participants joined with a
    bar, one more bar, and the random seed *)
Definition participantsDigest (participants : list string) (randomSeed : string) : list Z :=
  SHA256.digest
    (JS.encode (String.append (JS.join "|" participants) (String.append "|" randomSeed))).

(** The winner index: that integer modulo the number of participants *)
Definition winnerIndex (participants : list string) (randomSeed : string) : Z :=
  firstFourBytesAsUnsignedInt (participantsDigest participants randomSeed)
    mod Z.of_nat (List.length participants).

(** The winner: the participant at the winner index *)
Definition winner (participants : list string) (randomSeed : string) : option string :=
  nth_error participants (Z.to_nat (winnerIndex participants randomSeed)).

End Spec.

(* ------------------------------------------------------------------ *)
(** ** Predicates and views used in the statements                      *)
(* ------------------------------------------------------------------ *)

(** A byte value *)
Definition is_byte (b : Z) : Prop := 0 <= b < 256.

(** Code-unit order on strings, as a proposition *)
Definition code_unit_le (a b : string) : Prop := String.leb a b = true.

(** The test each verification loop applies to a reveal *)
Definition library_keeps (commits : list Library.CommitMessage) (reveal : Library.RevealMessage)
  : bool :=
  match find (fun c => String.eqb (Library.cm_participantId c) (Library.rm_participantId reveal))
             commits with
  | None => false
  | Some commit =>
      String.eqb (Library.hashSecret (Library.rm_secret reveal)) (Library.cm_commitment commit)
  end.

Definition form_keeps (commitments : list Form.Commitment) (reveal : Form.Reveal) : bool :=
  existsb (fun c => String.eqb (Form.c_address c) (Form.r_address reveal)
                    && String.eqb (Form.c_commitment c)
                                  (Form.generateCommitment (Form.r_secret reveal)))
          commitments.

(** The data of the messages that parsed to an object, in delivery order. *)
Definition parsed {A : Type} (inbox : list (JS.inbound A)) : list A :=
  flat_map (fun m => match m with JS.Parsed data => [data] | _ => [] end) inbox.

(** The commitments and the reveals among the delivered messages that the
    callbacks of [selectWinner] let through: those whose [commitment],
    respectively [secret], is not the empty string. *)
Definition accepted_commits (inbox : list (JS.inbound Library.wire))
  : list Library.CommitMessage :=
  flat_map (fun m => match m with
                     | JS.Parsed (Library.CommitData c) =>
                         if String.eqb (Library.cm_commitment c) "" then [] else [c]
                     | _ => []
                     end) inbox.

Definition accepted_reveals (inbox : list (JS.inbound Library.wire))
  : list Library.RevealMessage :=
  flat_map (fun m => match m with
                     | JS.Parsed (Library.RevealData r) =>
                         if String.eqb (Library.rm_secret r) "" then [] else [r]
                     | _ => []
                     end) inbox.

(** A sender other than the local address *)
Definition from_other (address : string) (sender : string) : bool :=
  negb (String.eqb sender address).

(* ------------------------------------------------------------------ *)
(** ** Concrete runs                                                    *)
(* ------------------------------------------------------------------ *)
Module Examples.

Definition LF : string := String (ascii_of_nat 10) "".

(** The text area holding A, B and C on three lines. *)
Definition three_lines : string :=
  String.append "A" (String.append LF (String.append "B" (String.append LF "C"))).

(** [runGiveaway]: the organizer alone. *)
Definition alone : Form.World := Form.mkWorld "s1" 1000 [] 2000 [] 3000.

(** [runGiveaway]: bob commits to "y", later to "z", and reveals "z". *)
Definition bob_y : Form.Commitment :=
  Form.mkCommitment "bob" (Form.generateCommitment "y") 1001.
Definition bob_z : Form.Commitment :=
  Form.mkCommitment "bob" (Form.generateCommitment "z") 1002.
Definition bob_reveals_z : Form.Reveal := Form.mkReveal "bob" "z" 2001.

Definition bob_once : Form.World :=
  Form.mkWorld "s1" 1000 [JS.Parsed bob_y] 2000 [JS.Parsed bob_reveals_z] 3000.
Definition bob_twice : Form.World :=
  Form.mkWorld "s1" 1000 [JS.Parsed bob_y; JS.Parsed bob_z] 2000 [JS.Parsed bob_reveals_z] 3000.

(** [selectWinner]: bob and carol commit to "x" and "y"; their reveals
    arrive in one order or the other. *)
Definition commit_of (sender secret : string) (t : Z) : JS.inbound Library.wire :=
  JS.Parsed (Library.CommitData (Library.mkCommit sender (Library.hashSecret secret) t)).
Definition reveal_of (sender secret : string) (t : Z) : JS.inbound Library.wire :=
  JS.Parsed (Library.RevealData (Library.mkReveal sender secret t)).

Definition bob_then_carol : Library.World :=
  Library.mkWorld "s1" 1000
    [commit_of "bob" "x" 1001; commit_of "carol" "y" 1002] 2000
    [reveal_of "bob" "x" 2001; reveal_of "carol" "y" 2002] 3000 3001.
Definition carol_then_bob : Library.World :=
  Library.mkWorld "s1" 1000
    [commit_of "bob" "x" 1001; commit_of "carol" "y" 1002] 2000
    [reveal_of "carol" "y" 2002; reveal_of "bob" "x" 2001] 3000 3001.

(** [selectWinner]: dave commits to "a", later to "b", and reveals "b". *)
Definition dave_twice : Library.World :=
  Library.mkWorld "s1" 1000
    [commit_of "dave" "a" 1001; commit_of "dave" "b" 1002] 2000
    [reveal_of "dave" "b" 2001] 3000 3001.

End Examples.

(* ------------------------------------------------------------------ *)
(** ** The wallet panel: the address as it is shown                     *)
(* ------------------------------------------------------------------ *)
Module Wallet.

(** [s.slice(-n)]: the last [n] characters, the whole of a shorter [s] *)
Definition slice_tail (n : nat) (s : string) : string :=
  String.substring (String.length s - n) n s.

(** [{address.slice(0, 12)}...{address.slice(-8)}], the text of the span
    that is rendered under [if (address)] *)
Definition shown (address : string) : string :=
  String.append (JS.slice 0 12 address) (String.append "..." (slice_tail 8 address)).

(** The address line of the panel: under [if (address)] the span above;
    for the empty address the connect buttons are rendered instead and no
    address is shown. *)
Definition address_line (address : string) : option string :=
  if String.eqb address "" then None else Some (shown address).

End Wallet.

(* ------------------------------------------------------------------ *)
(** ** Notions used in the further properties                           *)
(* ------------------------------------------------------------------ *)

(** A string of white space only *)
Fixpoint blank (s : string) : bool :=
  match s with
  | EmptyString => true
  | String c rest => JS.is_space c && blank rest
  end.

(** A string of lowercase hexadecimal digits only *)
Definition is_hex_digit (c : ascii) : bool :=
  let n := JS.code c in
  ((48 <=? n) && (n <=? 57)) || ((97 <=? n) && (n <=? 102)).

Fixpoint all_hex (s : string) : bool :=
  match s with
  | EmptyString => true
  | String c rest => is_hex_digit c && all_hex rest
  end.

(** A delivered message whose payload parsed to an object *)
Definition has_data {A : Type} (m : JS.inbound A) : bool :=
  match m with
  | JS.Parsed _ => true
  | _ => false
  end.

(* ================================================================== *)
(** * Properties                                                        *)
(* ================================================================== *)

(** ** Known answers of SHA-256 *)

Example sha256_hex_empty :
  sha256_hex "" = "e3b0c44298fc1c149afbf4c8996fb92427ae41e4649b934ca495991b7852b855".
Proof. vm_compute. reflexivity. Qed.

Example sha256_hex_abc :
  sha256_hex "abc" = "ba7816bf8f01cfea414140de5dae2223b00361a396177a9cb410ff61f20015ad".
Proof. vm_compute. reflexivity. Qed.

Example sha256_hex_two_blocks :
  sha256_hex "abcdbcdecdefdefgefghfghighijhijkijkljklmklmnlmnomnopnopq"
  = "248d6a61d20638b8e5c026930c3e6039a33ce45964ff2167f6ecedd419db06c1".
Proof. vm_compute. reflexivity. Qed.

(** ** Known answers of the platform functions *)

Example parseInt16_answers :
  JS.parseInt16 "ba7816bf" = JS.Int 3128432319
  /\ JS.parseInt16 " -0x1F" = JS.Int (-31)
  /\ JS.parseInt16 "12g4" = JS.Int 18
  /\ JS.parseInt16 "0x" = JS.NaN
  /\ JS.parseInt16 "" = JS.NaN.
Proof. repeat split. Qed.

Example toString_answers :
  JS.toString 16 0 = "0"
  /\ JS.toString 16 171 = "ab"
  /\ JS.padStart 2 "0" (JS.toString 16 5) = "05"
  /\ JS.toString 10 1730000000000 = "1730000000000".
Proof. repeat split. Qed.

Example rem_index_answers :
  JS.rem (JS.Int 10) 3 = JS.Int 1
  /\ JS.rem (JS.Int 10) 0 = JS.NaN
  /\ JS.index ["A"; "B"] (JS.Int 1) = Some "B"
  /\ JS.index ["A"; "B"] (JS.Int 2) = None
  /\ JS.index ["A"; "B"] JS.NaN = None.
Proof. repeat split. Qed.

Example sort_join_answers :
  JS.sort ["b"; "a"; "B"; "ab"; ""] = [""; "B"; "a"; "ab"; "b"]
  /\ JS.join "|" ["A"; "B"; "C"] = "A|B|C"
  /\ JS.join "|" [] = ""
  /\ JS.slice 0 8 "0123456789" = "01234567".
Proof. repeat split. Qed.

Example participantList_answers :
  Form.participantList
    (String.append " A " (String.append Examples.LF
       (String.append Examples.LF (String.append "B" Examples.LF))))
  = ["A"; "B"]
  /\ Form.trim "  a b  " = "a b"
  /\ Form.runGiveaway "   " "alice" Examples.alone = Form.AddParticipantsFirst.
Proof. repeat split. Qed.

(** ** The shape of a digest and of its rendering *)

Lemma be_bytes4_shape (x : Z) :
  exists b0 b1 b2 b3,
    SHA256.be_bytes 4 x = [b0; b1; b2; b3]
    /\ is_byte b0 /\ is_byte b1 /\ is_byte b2 /\ is_byte b3.
Proof.
  unfold SHA256.be_bytes; cbn [seq rev app map].
  do 4 eexists; split; [reflexivity|].
  unfold is_byte; repeat split; try (apply Z.mod_pos_bound; lia).
Qed.

Lemma digest_shape (msg : list Z) :
  exists b0 b1 b2 b3 rest,
    SHA256.digest msg = b0 :: b1 :: b2 :: b3 :: rest
    /\ is_byte b0 /\ is_byte b1 /\ is_byte b2 /\ is_byte b3
    /\ List.length rest = 28%nat /\ Forall is_byte rest.
Proof.
  unfold SHA256.digest.
  set (s := SHA256.blocks _ _ _).
  unfold SHA256.regs_words; cbn [flat_map].
  destruct (be_bytes4_shape (SHA256.ra s)) as (a0 & a1 & a2 & a3 & Ea & ? & ? & ? & ?).
  exists a0, a1, a2, a3.
  eexists; rewrite Ea; split; [reflexivity|].
  repeat (split; [assumption|]).
  repeat match goal with
         | |- context [SHA256.be_bytes 4 ?x] =>
             let E := fresh "E" in
             destruct (be_bytes4_shape x) as (? & ? & ? & ? & E & ? & ? & ? & ?);
             rewrite E; clear E
         end.
  cbn [app List.length]; split; [reflexivity|].
  repeat (constructor; [assumption|]); constructor.
Qed.

Lemma digest_length (msg : list Z) : List.length (SHA256.digest msg) = 32%nat.
Proof.
  destruct (digest_shape msg) as (b0 & b1 & b2 & b3 & rest & E & _ & _ & _ & _ & L & _).
  rewrite E; cbn [List.length]; rewrite L; reflexivity.
Qed.

(** A byte renders as exactly two hexadecimal digits. *)
Lemma in_range_enum (n : nat) (x : Z) :
  0 <= x < Z.of_nat n -> In x (map Z.of_nat (seq 0 n)).
Proof.
  intros H. apply in_map_iff. exists (Z.to_nat x). split; [lia|].
  apply in_seq. lia.
Qed.

Lemma hex_of_byte (b : Z) :
  is_byte b ->
  JS.padStart 2 "0" (JS.toString 16 b)
  = String (JS.digit_char (b / 16)) (String (JS.digit_char (b mod 16)) "").
Proof.
  intros H.
  assert (A : forallb (fun x => String.eqb (JS.padStart 2 "0" (JS.toString 16 x))
                                  (String (JS.digit_char (x / 16))
                                     (String (JS.digit_char (x mod 16)) "")))
                (map Z.of_nat (seq 0 256)) = true)
    by (vm_compute; reflexivity).
  rewrite forallb_forall in A.
  apply String.eqb_eq, A, in_range_enum. exact H.
Qed.

(** What [parseInt] sees in a hexadecimal digit. *)
Lemma digit_char_parse (d : Z) :
  0 <= d < 16 ->
  JS.is_space (JS.digit_char d) = false
  /\ (JS.code (JS.digit_char d) =? 45) = false
  /\ (JS.code (JS.digit_char d) =? 43) = false
  /\ (JS.code (JS.digit_char d) =? 120) = false
  /\ (JS.code (JS.digit_char d) =? 88) = false
  /\ JS.hex_value (JS.digit_char d) = Some d.
Proof.
  intros H.
  assert (A : forallb (fun x =>
                let c := JS.digit_char x in
                negb (JS.is_space c)
                && negb (JS.code c =? 45) && negb (JS.code c =? 43)
                && negb (JS.code c =? 120) && negb (JS.code c =? 88)
                && match JS.hex_value c with Some v => v =? x | None => false end)
                (map Z.of_nat (seq 0 16)) = true)
    by (vm_compute; reflexivity).
  rewrite forallb_forall in A.
  specialize (A d (in_range_enum 16 d H)). cbv zeta in A.
  repeat (apply andb_prop in A; destruct A as [A ?]).
  repeat match goal with
         | h : negb _ = true |- _ => apply negb_true_iff in h
         end.
  destruct (JS.hex_value (JS.digit_char d)) as [v|]; [|discriminate].
  repeat split; try assumption.
  f_equal. lia.
Qed.

Lemma join_empty_cons (x : string) (xs : list string) :
  JS.join "" (x :: xs) = String.append x (JS.join "" xs).
Proof.
  unfold JS.join. destruct xs as [|y ys]; cbn [String.concat].
  - clear. induction x as [|c x IH]; cbn; [reflexivity | now rewrite <- IH].
  - reflexivity.
Qed.

(** [parseInt] of the first eight characters of a rendered digest reads its
    first four bytes, most significant first. *)
Lemma parseInt16_hex_prefix (b0 b1 b2 b3 : Z) (rest : list Z) :
  is_byte b0 -> is_byte b1 -> is_byte b2 -> is_byte b3 ->
  JS.parseInt16 (JS.slice 0 8 (hex (b0 :: b1 :: b2 :: b3 :: rest)))
  = JS.Int (((b0 * 256 + b1) * 256 + b2) * 256 + b3).
Proof.
  intros H0 H1 H2 H3.
  unfold hex; cbn [map].
  rewrite !join_empty_cons, !hex_of_byte by assumption.
  cbn [String.append JS.slice Nat.sub String.substring].
  assert (D : forall b, is_byte b -> 0 <= b / 16 < 16 /\ 0 <= b mod 16 < 16).
  { intros b Hb; unfold is_byte in Hb; split.
    - split; [apply Z.div_pos; lia | apply Z.div_lt_upper_bound; lia].
    - apply Z.mod_pos_bound; lia. }
  destruct (D b0 H0) as [Q0 R0], (D b1 H1) as [Q1 R1],
           (D b2 H2) as [Q2 R2], (D b3 H3) as [Q3 R3].
  destruct (digit_char_parse _ Q0) as (S0 & M0 & P0 & X0 & Y0 & V0).
  destruct (digit_char_parse _ R0) as (_ & _ & _ & X1 & Y1 & V1).
  destruct (digit_char_parse _ Q1) as (_ & _ & _ & _ & _ & V2).
  destruct (digit_char_parse _ R1) as (_ & _ & _ & _ & _ & V3).
  destruct (digit_char_parse _ Q2) as (_ & _ & _ & _ & _ & V4).
  destruct (digit_char_parse _ R2) as (_ & _ & _ & _ & _ & V5).
  destruct (digit_char_parse _ Q3) as (_ & _ & _ & _ & _ & V6).
  destruct (digit_char_parse _ R3) as (_ & _ & _ & _ & _ & V7).
  unfold JS.parseInt16; cbn [JS.skip_space]. rewrite S0, M0, P0.
  unfold JS.strip_0x. rewrite X1, Y1, andb_false_r.
  cbn [JS.hex_run]. rewrite V0, V1, V2, V3, V4, V5, V6, V7.
  replace (String.substring 0 0 _) with "" by (now destruct (JS.join _ _)).
  cbn [JS.hex_run]. f_equal.
  clear - H0 H1 H2 H3. unfold is_byte in *. Z.div_mod_to_equations. lia.
Qed.

Lemma parseInt16_sha256_hex (data : string) :
  let v := Spec.firstFourBytesAsUnsignedInt (SHA256.digest (JS.encode data)) in
  JS.parseInt16 (JS.slice 0 8 (sha256_hex data)) = JS.Int v /\ 0 <= v < 2 ^ 32.
Proof.
  unfold sha256_hex, Spec.firstFourBytesAsUnsignedInt.
  destruct (digest_shape (JS.encode data))
    as (b0 & b1 & b2 & b3 & rest & E & H0 & H1 & H2 & H3 & _).
  rewrite E, parseInt16_hex_prefix by assumption.
  cbn [firstn fold_left]. split; [f_equal; lia|].
  unfold is_byte in *. lia.
Qed.

(** [%] by the length of a non-empty array, and the read at that index. *)
Lemma rem_in_range (v : Z) (n : nat) :
  0 <= v -> n <> 0%nat ->
  JS.rem (JS.Int v) n = JS.Int (v mod Z.of_nat n) /\ 0 <= v mod Z.of_nat n < Z.of_nat n.
Proof.
  intros Hv Hn. destruct n as [|n]; [congruence|].
  cbn [JS.rem]. rewrite Z.rem_mod_nonneg by lia.
  split; [reflexivity | apply Z.mod_pos_bound; lia].
Qed.

Lemma index_in_range {A : Type} (xs : list A) (i : Z) :
  0 <= i < Z.of_nat (List.length xs) ->
  exists x, JS.index xs (JS.Int i) = Some x /\ nth_error xs (Z.to_nat i) = Some x /\ In x xs.
Proof.
  intros H. cbn [JS.index].
  destruct (Z.ltb_spec i 0) as [?|_]; [lia|].
  destruct (nth_error xs (Z.to_nat i)) as [x|] eqn:E.
  - exists x. repeat split; eauto using nth_error_In.
  - apply nth_error_None in E. lia.
Qed.

Lemma length_nonempty {A : Type} (xs : list A) : xs <> [] -> List.length xs <> 0%nat.
Proof. destruct xs; cbn; congruence. Qed.

(** [selectWinner] and [verifyResult] draw the index as the specification
    words it. *)
Lemma library_winnerIndex_two_step (participants : list string) (randomSeed : string) :
  participants <> [] ->
  Library.winnerIndex participants randomSeed
  = JS.Int (Spec.winnerIndex participants randomSeed)
  /\ 0 <= Spec.winnerIndex participants randomSeed < Z.of_nat (List.length participants).
Proof.
  intros Hne. unfold Library.winnerIndex, Library.hashParticipants, Spec.winnerIndex,
    Spec.participantsDigest.
  destruct (parseInt16_sha256_hex
              (String.append (JS.join "|" participants) (String.append "|" randomSeed)))
    as [E B].
  rewrite E. apply rem_in_range; [lia | now apply length_nonempty].
Qed.

(** [runGiveaway] draws the index from the seed itself. *)
Lemma form_winnerIndex_one_step (participantList : list string) (entropy : string) :
  participantList <> [] ->
  let v := Spec.firstFourBytesAsUnsignedInt (SHA256.digest (JS.encode entropy)) in
  let n := Z.of_nat (List.length participantList) in
  Form.winnerIndex participantList (Form.generateCommitment entropy) = JS.Int (v mod n)
  /\ 0 <= v mod n < n.
Proof.
  intros Hne v n. unfold Form.winnerIndex, Form.generateCommitment.
  destruct (parseInt16_sha256_hex entropy) as [E B].
  rewrite E. apply rem_in_range; [apply B | now apply length_nonempty].
Qed.

(** ** [Array#sort] on strings: the order of the input does not matter *)
Lemma leb_trans (a b c : string) :
  String.leb a b = true -> String.leb b c = true -> String.leb a c = true.
Proof.
  unfold String.leb. revert b c.
  induction a as [|x a IH]; intros [|y b] [|z c]; cbn [String.compare]; try easy.
  unfold Ascii.compare.
  destruct (N.compare_spec (N_of_ascii x) (N_of_ascii y)),
           (N.compare_spec (N_of_ascii y) (N_of_ascii z)),
           (N.compare_spec (N_of_ascii x) (N_of_ascii z));
    try easy; try lia.
  apply IH.
Qed.

Lemma insert_perm (x : string) (xs : list string) : Permutation (JS.insert x xs) (x :: xs).
Proof.
  induction xs as [|y xs IH]; cbn [JS.insert]; [reflexivity|].
  destruct (String.leb x y); [reflexivity|].
  rewrite IH. apply perm_swap.
Qed.

Lemma sort_perm (xs : list string) : Permutation (JS.sort xs) xs.
Proof.
  induction xs as [|x xs IH]; cbn [JS.sort]; [reflexivity|].
  rewrite insert_perm. now constructor.
Qed.

Lemma insert_sorted (x : string) (xs : list string) :
  StronglySorted code_unit_le xs -> StronglySorted code_unit_le (JS.insert x xs).
Proof.
  induction 1 as [|y xs S IH F]; cbn [JS.insert].
  - repeat constructor.
  - destruct (String.leb x y) eqn:E.
    + constructor; [now constructor|].
      constructor; [exact E|].
      eapply Forall_impl; [|exact F]. intros z Hz. eapply leb_trans; eassumption.
    + constructor; [exact IH|].
      eapply Permutation_Forall; [symmetry; apply insert_perm|].
      constructor; [|exact F].
      destruct (String.leb_total x y) as [A|A]; [congruence | exact A].
Qed.

Lemma sort_sorted (xs : list string) : StronglySorted code_unit_le (JS.sort xs).
Proof.
  induction xs as [|x xs IH]; cbn [JS.sort]; [constructor | now apply insert_sorted].
Qed.

Lemma sorted_perm_eq (xs ys : list string) :
  StronglySorted code_unit_le xs -> StronglySorted code_unit_le ys -> Permutation xs ys -> xs = ys.
Proof.
  intros Sx. revert ys.
  induction Sx as [|x xs Sx IH Fx]; intros ys Sy P.
  - now apply Permutation_nil in P.
  - destruct Sy as [|y ys Sy Fy].
    + symmetry in P. now apply Permutation_nil in P.
    + assert (x = y) as ->.
      { assert (Ix : In x (y :: ys)) by (eapply Permutation_in; [exact P | now left]).
        assert (Iy : In y (x :: xs))
          by (eapply Permutation_in; [symmetry; exact P | now left]).
        destruct Ix as [->|Ix]; [reflexivity|].
        destruct Iy as [->|Iy]; [reflexivity|].
        rewrite Forall_forall in Fx, Fy.
        apply String.leb_antisym; [apply Fx, Iy | apply Fy, Ix]. }
      f_equal. apply IH; [exact Sy | eapply Permutation_cons_inv; exact P].
Qed.

Lemma sort_permutation_invariant (xs ys : list string) :
  Permutation xs ys -> JS.sort xs = JS.sort ys.
Proof.
  intros P. apply sorted_perm_eq; try apply sort_sorted.
  rewrite !sort_perm. exact P.
Qed.

(** ** The two verification loops as filters *)

Lemma push_loop_filter {A : Type} (keep : A -> bool) (xs acc : list A) :
  fold_left (fun valid x => if keep x then valid ++ [x] else valid) xs acc
  = acc ++ filter keep xs.
Proof.
  revert acc. induction xs as [|x xs IH]; intros acc; cbn [fold_left filter].
  - now rewrite app_nil_r.
  - rewrite IH. destruct (keep x); [now rewrite <- app_assoc | reflexivity].
Qed.

Lemma fold_left_ext_fun {A B : Type} (f g : A -> B -> A) (xs : list B) (a : A) :
  (forall a b, f a b = g a b) -> fold_left f xs a = fold_left g xs a.
Proof.
  intros E. revert a. induction xs as [|x xs IH]; intros a; cbn; [reflexivity|].
  now rewrite E, IH.
Qed.

Lemma verifyReveals_filter (commits : list Library.CommitMessage)
    (reveals : list Library.RevealMessage) :
  Library.verifyReveals commits reveals = filter (library_keeps commits) reveals.
Proof.
  unfold Library.verifyReveals.
  rewrite <- (app_nil_l (filter _ _)), <- push_loop_filter.
  apply fold_left_ext_fun. intros valid reveal. unfold library_keeps.
  destruct (find _ commits); reflexivity.
Qed.

Lemma find_existsb {A : Type} (p : A -> bool) (xs : list A) :
  existsb p xs = match find p xs with Some _ => true | None => false end.
Proof.
  induction xs as [|x xs IH]; cbn; [reflexivity|]. destruct (p x); [reflexivity | exact IH].
Qed.

Lemma validReveals_filter (commitments : list Form.Commitment) (reveals : list Form.Reveal) :
  Form.validReveals commitments reveals = filter (form_keeps commitments) reveals.
Proof.
  unfold Form.validReveals.
  rewrite <- (app_nil_l (filter _ _)), <- push_loop_filter.
  apply fold_left_ext_fun. intros valid reveal. unfold form_keeps.
  rewrite find_existsb. destruct (find _ commitments); reflexivity.
Qed.

(** [xs.find(p)] returns the first element that satisfies [p]. *)
Lemma find_first {A : Type} (p : A -> bool) (xs : list A) (x : A) :
  find p xs = Some x <->
  exists before after,
    xs = before ++ x :: after /\ p x = true /\ forall y, In y before -> p y = false.
Proof.
  split.
  - induction xs as [|y xs IH]; cbn [find]; [discriminate|].
    destruct (p y) eqn:E.
    + intros [= ->]. exists [], xs. repeat split; [exact E | intros ? []].
    + intros F. destruct (IH F) as (before & after & -> & Px & Hb).
      exists (y :: before), after. repeat split; [exact Px|].
      intros z [<-|Hz]; [exact E | now apply Hb].
  - intros (before & after & -> & Px & Hb).
    induction before as [|y before IH]; cbn [app find].
    + now rewrite Px.
    + rewrite (Hb y) by now left. apply IH. intros z Hz. apply Hb. now right.
Qed.

(** ** What the subscription callbacks retain *)

Lemma form_deliver_commit (address : string) (inbox : list (JS.inbound Form.Commitment))
    (store : list Form.Commitment) :
  deliver (Form.on_commit address) store inbox
  = store ++ filter (fun c => from_other address (Form.c_address c)) (parsed inbox).
Proof.
  unfold deliver. revert store.
  induction inbox as [|m inbox IH]; intros store; cbn [fold_left parsed flat_map filter].
  - now rewrite app_nil_r.
  - rewrite IH. fold (parsed inbox).
    destruct m as [| | |data]; cbn [Form.on_commit app filter]; try reflexivity.
    unfold from_other at 2.
    destruct (negb (String.eqb (Form.c_address data) address));
      [now rewrite <- app_assoc | reflexivity].
Qed.

Lemma form_deliver_reveal (address : string) (inbox : list (JS.inbound Form.Reveal))
    (store : list Form.Reveal) :
  deliver (Form.on_reveal address) store inbox
  = store ++ filter (fun r => from_other address (Form.r_address r)) (parsed inbox).
Proof.
  unfold deliver. revert store.
  induction inbox as [|m inbox IH]; intros store; cbn [fold_left parsed flat_map filter].
  - now rewrite app_nil_r.
  - rewrite IH. fold (parsed inbox).
    destruct m as [| | |data]; cbn [Form.on_reveal app filter]; try reflexivity.
    unfold from_other at 2.
    destruct (negb (String.eqb (Form.r_address data) address));
      [now rewrite <- app_assoc | reflexivity].
Qed.

Lemma filter_filter_none {A : Type} (p q : A -> bool) (xs : list A) :
  (forall x, q x = true -> p x = false) -> filter p (filter q xs) = [].
Proof.
  intros H. induction xs as [|x xs IH]; cbn [filter]; [reflexivity|].
  destruct (q x) eqn:E; [|exact IH]. cbn [filter]. now rewrite (H x E).
Qed.

(** [selectWinner] retains every commitment and every reveal its callbacks
    let through, whoever sent it and however often. *)
Lemma library_deliver_commit (inbox : list (JS.inbound Library.wire))
    (store : list Library.CommitMessage) :
  deliver Library.on_commit store inbox = store ++ accepted_commits inbox.
Proof.
  unfold deliver. revert store.
  induction inbox as [|m inbox IH]; intros store; cbn [fold_left accepted_commits flat_map].
  - now rewrite app_nil_r.
  - rewrite IH. fold (accepted_commits inbox).
    destruct m as [| | |[c|r]]; cbn; try reflexivity.
    destruct (String.eqb (Library.cm_commitment c) ""); cbn;
      [reflexivity | now rewrite <- app_assoc].
Qed.

Lemma library_deliver_reveal (inbox : list (JS.inbound Library.wire))
    (store : list Library.RevealMessage) :
  deliver Library.on_reveal store inbox = store ++ accepted_reveals inbox.
Proof.
  unfold deliver. revert store.
  induction inbox as [|m inbox IH]; intros store; cbn [fold_left accepted_reveals flat_map].
  - now rewrite app_nil_r.
  - rewrite IH. fold (accepted_reveals inbox).
    destruct m as [| | |[c|r]]; cbn; try reflexivity.
    destruct (String.eqb (Library.rm_secret r) ""); cbn;
      [reflexivity | now rewrite <- app_assoc].
Qed.

(** The callbacks of the library never throw, and leave the collection
    alone on a payload that does not parse. *)
Lemma library_on_commit_total (commits : list Library.CommitMessage)
    (message : JS.inbound Library.wire) :
  exists commits', Library.on_commit commits message = JS.Normal commits'.
Proof.
  destruct message as [| | |[c|r]]; cbn; eauto.
  destruct (negb (String.eqb (Library.cm_commitment c) "")); cbn; eauto.
Qed.

Lemma library_on_reveal_total (reveals : list Library.RevealMessage)
    (message : JS.inbound Library.wire) :
  exists reveals', Library.on_reveal reveals message = JS.Normal reveals'.
Proof.
  destruct message as [| | |[c|r]]; cbn; eauto.
  destruct (negb (String.eqb (Library.rm_secret r) "")); cbn; eauto.
Qed.

(** ** The claims *)

(** C1 (evaluated on [runGiveaway]).  The winner index is to be drawn in two
    steps: a participants digest over the joined list and the seed, then its
    first four bytes modulo the length.  [selectWinner] and [verifyResult] do
    so ([library_winnerIndex_two_step]); [runGiveaway] takes the first four
    bytes of the seed itself.  On the participants A, B, C with the organizer
    alone it publishes B, the two-step derivation on the published list and
    seed gives C, and [verifyResult] rejects the published result. *)
Theorem runGiveaway_skips_participants_digest :
  exists result,
    Form.runGiveaway Examples.three_lines "alice" Examples.alone = Form.Produced result
    /\ participants result = ["A"; "B"; "C"]
    /\ winner result = Some "B"
    /\ Form.winnerIndex (participants result) (randomSeed result) = JS.Int 1
    /\ Spec.winnerIndex (participants result) (randomSeed result) = 2
    /\ Spec.winner (participants result) (randomSeed result) = Some "C"
    /\ Library.verifyResult result "alice" = false.
Proof.
  eexists. split; [vm_compute; reflexivity|].
  repeat split; vm_compute; reflexivity.
Qed.

(** C2.  A result produced by [selectWinner] from a non-empty participant
    list passes [verifyResult], whoever the organizer named to it is, and it
    fails as soon as its winner is replaced by any other value. *)
Theorem verifyResult_accepts_exactly_the_selected_winner
    (ps : list string) (organizerAddress verifier : string) (w : Library.World) :
  ps <> [] ->
  let result := Library.selectWinner ps organizerAddress w in
  Library.verifyResult result verifier = true
  /\ (exists p, winner result = Some p /\ In p ps)
  /\ forall other : option string,
       other <> winner result ->
       Library.verifyResult
         (mkResult other (timestamp result) (participants result)
                   (randomSeed result) (verificationHash result)) verifier = false.
Proof.
  intros Hne result.
  assert (R : forall a b : option string, strict_eq a b = true <-> a = b).
  { intros [x|] [y|]; cbn; try (split; congruence).
    rewrite String.eqb_eq. split; congruence. }
  unfold Library.verifyResult; subst result; cbn [participants randomSeed winner
    Library.selectWinner timestamp verificationHash].
  fold (Library.winnerIndex ps
          (Library.hashSecret (Library.combinedEntropy
             (Library.verifyReveals (Library.collected_commits organizerAddress w)
                                    (Library.collected_reveals organizerAddress w))))).
  set (seed := Library.hashSecret _).
  split; [now apply R|]. split.
  - destruct (library_winnerIndex_two_step ps seed Hne) as [E B].
    rewrite E. destruct (index_in_range ps _ B) as (p & Ip & _ & Hin). eauto.
  - intros other Hother.
    destruct (strict_eq _ other) eqn:E; [|reflexivity].
    apply R in E. congruence.
Qed.

(** C2 on a run with three participants and two other senders. *)
Lemma verifyResult_accepts_exactly_the_selected_winner_witness :
  let result := Library.selectWinner ["A"; "B"; "C"] "alice" Examples.bob_then_carol in
  Library.verifyResult result "anyone" = true
  /\ (exists p, winner result = Some p /\ In p ["A"; "B"; "C"])
  /\ forall other : option string,
       other <> winner result ->
       Library.verifyResult
         (mkResult other (timestamp result) (participants result)
                   (randomSeed result) (verificationHash result)) "anyone" = false.
Proof.
  apply (verifyResult_accepts_exactly_the_selected_winner
           ["A"; "B"; "C"] "alice" "anyone" Examples.bob_then_carol).
  discriminate.
Defined.

(** [runGiveaway] sorts the secrets before joining them, so the order in
    which the valid reveals are listed does not reach its seed. *)
Lemma form_seed_order_independent (valid valid' : list Form.Reveal) :
  Permutation valid valid' ->
  Form.generateCommitment (Form.combinedEntropy valid)
  = Form.generateCommitment (Form.combinedEntropy valid').
Proof.
  intros P. unfold Form.combinedEntropy.
  now rewrite (sort_permutation_invariant _ _ (Permutation_map Form.r_secret P)).
Qed.

(** C3 (evaluated on [selectWinner]).  Permuting the order in which the valid
    reveals are listed must not change the seed.  [runGiveaway] sorts the
    secrets ([form_seed_order_independent]); [selectWinner] joins them in
    arrival order.  With the same commitments and the same two valid reveals
    delivered in the two possible orders, the valid reveals are the same up to
    order, yet the seeds and the winners differ. *)
Theorem selectWinner_seed_follows_arrival_order :
  let ps := ["A"; "B"; "C"] in
  let first := Library.selectWinner ps "alice" Examples.bob_then_carol in
  let second := Library.selectWinner ps "alice" Examples.carol_then_bob in
  Library.collected_commits "alice" Examples.bob_then_carol
  = Library.collected_commits "alice" Examples.carol_then_bob
  /\ Permutation
       (Library.verifyReveals (Library.collected_commits "alice" Examples.bob_then_carol)
                              (Library.collected_reveals "alice" Examples.bob_then_carol))
       (Library.verifyReveals (Library.collected_commits "alice" Examples.carol_then_bob)
                              (Library.collected_reveals "alice" Examples.carol_then_bob))
  /\ randomSeed first <> randomSeed second
  /\ winner first = Some "A"
  /\ winner second = Some "C".
Proof.
  cbv zeta. split; [reflexivity|]. split.
  - vm_compute. apply perm_skip, perm_swap.
  - split; [|split; vm_compute; reflexivity].
    intros E. vm_compute in E. discriminate E.
Qed.

(** Two commitments of one sender (the collections are arrays, and nothing
    removes a second commitment: see C5).  [verifyReveals] then looks at the
    first one only: a later commitment with the sender of the reveal and the
    hash of its secret does not make the reveal valid. *)
Lemma verifyReveals_consults_first_commitment_only :
  let commits := Library.collected_commits "alice" Examples.dave_twice in
  let reveals := Library.collected_reveals "alice" Examples.dave_twice in
  let reveal := Library.mkReveal "dave" "b" 2001 in
  ~ (In reveal (Library.verifyReveals commits reveals)
     <-> In reveal reveals
         /\ exists c, In c commits
                      /\ Library.cm_participantId c = Library.rm_participantId reveal
                      /\ Library.cm_commitment c
                         = Library.hashSecret (Library.rm_secret reveal)).
Proof.
  cbv zeta. intros [_ H].
  assert (I : In (Library.mkReveal "dave" "b" 2001)
                 (Library.verifyReveals (Library.collected_commits "alice" Examples.dave_twice)
                                        (Library.collected_reveals "alice" Examples.dave_twice))).
  { apply H. split.
    - vm_compute. right. left. reflexivity.
    - exists (Library.mkCommit "dave" (Library.hashSecret "b") 1002). split.
      + vm_compute. right. right. left. reflexivity.
      + split; reflexivity. }
  vm_compute in I. destruct I as [I|[]]. discriminate I.
Qed.

(** On any list of commitments, repeated senders included, [verifyReveals]
    keeps a reveal exactly when the first recorded commitment of its sender
    holds the hash of its secret, and the loop of [runGiveaway] keeps it
    exactly when some recorded commitment of its sender holds that hash. *)
Theorem valid_reveals_characterised :
  (forall commits reveals reveal,
      In reveal (Library.verifyReveals commits reveals)
      <-> In reveal reveals
          /\ exists earlier commit later,
               commits = earlier ++ commit :: later
               /\ (forall c, In c earlier ->
                     Library.cm_participantId c <> Library.rm_participantId reveal)
               /\ Library.cm_participantId commit = Library.rm_participantId reveal
               /\ Library.cm_commitment commit
                  = Library.hashSecret (Library.rm_secret reveal))
  /\ (forall commitments reveals reveal,
         In reveal (Form.validReveals commitments reveals)
         <-> In reveal reveals
             /\ exists c, In c commitments
                          /\ Form.c_address c = Form.r_address reveal
                          /\ Form.c_commitment c
                             = Form.generateCommitment (Form.r_secret reveal)).
Proof.
  split.
  - intros commits reveals reveal.
    rewrite verifyReveals_filter, filter_In. unfold library_keeps.
    split; intros [Hin H]; (split; [exact Hin|]).
    + destruct (find _ commits) as [commit|] eqn:F; [|discriminate].
      apply find_first in F. destruct F as (earlier & later & -> & Pc & Pe).
      exists earlier, commit, later. repeat split.
      * intros c Hc. apply String.eqb_neq, Pe, Hc.
      * now apply String.eqb_eq.
      * symmetry. now apply String.eqb_eq.
    + destruct H as (earlier & commit & later & -> & Pe & Pc & Hh).
      assert (F : find (fun c => String.eqb (Library.cm_participantId c)
                                            (Library.rm_participantId reveal))
                       (earlier ++ commit :: later) = Some commit).
      { apply find_first. exists earlier, later. repeat split.
        - now apply String.eqb_eq.
        - intros c Hc. apply String.eqb_neq, Pe, Hc. }
      rewrite F. apply String.eqb_eq. now symmetry.
  - intros commitments reveals reveal.
    rewrite validReveals_filter, filter_In. unfold form_keeps. rewrite existsb_exists.
    split; intros [Hin (c & Hc & H)]; (split; [exact Hin|]); exists c; (split; [exact Hc|]).
    + apply andb_prop in H. destruct H as [A B].
      split; now apply String.eqb_eq.
    + destruct H as [A B]. apply andb_true_intro. split; now apply String.eqb_eq.
Qed.

(** A reveal whose sender has no recorded commitment is never valid, in
    either implementation. *)
Lemma reveal_without_commitment_is_invalid :
  (forall commits reveals reveal,
      (forall c, In c commits ->
                 Library.cm_participantId c <> Library.rm_participantId reveal) ->
      ~ In reveal (Library.verifyReveals commits reveals))
  /\ (forall commitments reveals reveal,
         (forall c, In c commitments -> Form.c_address c <> Form.r_address reveal) ->
         ~ In reveal (Form.validReveals commitments reveals)).
Proof.
  split.
  - intros commits reveals reveal Hno Hin.
    rewrite verifyReveals_filter in Hin. apply filter_In in Hin. destruct Hin as [_ K].
    unfold library_keeps in K.
    destruct (find _ commits) as [commit|] eqn:F; [|discriminate].
    apply find_some in F. destruct F as [Hc Pc].
    apply (Hno commit Hc). now apply String.eqb_eq.
  - intros commitments reveals reveal Hno Hin.
    rewrite validReveals_filter in Hin. apply filter_In in Hin. destruct Hin as [_ K].
    unfold form_keeps in K. apply existsb_exists in K. destruct K as (c & Hc & K).
    apply andb_prop in K. destruct K as [Pc _].
    apply (Hno c Hc). now apply String.eqb_eq.
Qed.

(** In [verifyReveals] the first-seen commitment of a sender stands: one
    recorded later for the same sender changes nothing. *)
Lemma verifyReveals_first_commitment_stands (commits : list Library.CommitMessage)
    (reveals : list Library.RevealMessage) (late : Library.CommitMessage) :
  (exists c, In c commits /\ Library.cm_participantId c = Library.cm_participantId late) ->
  Library.verifyReveals (commits ++ [late]) reveals = Library.verifyReveals commits reveals.
Proof.
  intros (c & Hc & Pc). rewrite !verifyReveals_filter.
  apply filter_ext. intros reveal. unfold library_keeps.
  set (p := fun c0 => String.eqb (Library.cm_participantId c0) (Library.rm_participantId reveal)).
  assert (E : find p (commits ++ [late]) = find p commits); [|now rewrite E].
  destruct (find p commits) as [first|] eqn:F.
  - apply find_first in F. destruct F as (earlier & later & -> & Pf & Pe).
    apply find_first. exists earlier, (later ++ [late]).
    rewrite <- app_assoc. repeat split; assumption.
  - assert (N : p late = false).
    { pose proof (find_none _ _ F c Hc) as Hn. unfold p in *. now rewrite <- Pc. }
    clear - F N. induction commits as [|x xs IH]; cbn [app find] in *.
    + now rewrite N.
    + destruct (p x); [discriminate | now apply IH].
Qed.

(** C5 (evaluated on [runGiveaway]).  A second commitment from a sender
    already recorded is to be ignored, the first-seen one standing, so that
    it cannot change the outcome.  [selectWinner] gets there through
    [verifyReveals], which consults the first commitment of a sender only
    ([verifyReveals_first_commitment_stands]).  [runGiveaway] keeps both
    commitments of a sender who commits twice and accepts a reveal against
    either: bob commits to one secret, then to another, reveals the second,
    and the winner changes from B to A. *)
Lemma runGiveaway_retains_second_commitment :
  ~ (forall sender,
        (List.length (filter (fun c => String.eqb (Form.c_address c) sender)
                             (Form.collected_commitments "alice" Examples.bob_twice)) <= 1)%nat)
  /\ Form.collected_commitments "alice" Examples.bob_twice
     = [Form.mkCommitment "alice" (Form.generateCommitment "s1") 1000;
        Examples.bob_y; Examples.bob_z]
  /\ Form.c_commitment Examples.bob_y <> Form.c_commitment Examples.bob_z
  /\ (exists r, Form.runGiveaway Examples.three_lines "alice" Examples.bob_once
                = Form.Produced r /\ winner r = Some "B")
  /\ (exists r, Form.runGiveaway Examples.three_lines "alice" Examples.bob_twice
                = Form.Produced r /\ winner r = Some "A").
Proof.
  split; [|split; [reflexivity|split]].
  - intros H. specialize (H "bob"). vm_compute in H. lia.
  - intros E. vm_compute in E. discriminate E.
  - split; eexists; (split; [vm_compute; reflexivity | reflexivity]).
Qed.

(** What the callbacks of [runGiveaway] retain.  For the organizer's own
    address exactly one commitment and one reveal, the ones it recorded
    itself: a delivered message that carries its address is ignored.  A
    delivered message from any other address is retained whenever it parses,
    whether or not that address has been seen before. *)
Theorem runGiveaway_retention (address : string) (w : Form.World) :
  let own_commit :=
    Form.mkCommitment address (Form.generateCommitment (Form.secret w)) (Form.now_commit w) in
  let own_reveal := Form.mkReveal address (Form.secret w) (Form.now_reveal w) in
  Form.collected_commitments address w
  = own_commit :: filter (fun c => from_other address (Form.c_address c))
                         (parsed (Form.heard_commit w))
  /\ Form.collected_reveals address w
     = own_reveal :: filter (fun r => from_other address (Form.r_address r))
                            (parsed (Form.heard_reveal w))
  /\ filter (fun c => String.eqb (Form.c_address c) address)
            (Form.collected_commitments address w) = [own_commit]
  /\ filter (fun r => String.eqb (Form.r_address r) address)
            (Form.collected_reveals address w) = [own_reveal].
Proof.
  intros own_commit own_reveal.
  unfold Form.collected_commitments, Form.collected_reveals.
  rewrite form_deliver_commit, form_deliver_reveal.
  fold own_commit own_reveal. cbn [app].
  split; [reflexivity|]. split; [reflexivity|].
  split; cbn [filter]; subst own_commit own_reveal;
    cbn [Form.c_address Form.r_address]; rewrite String.eqb_refl; f_equal;
    apply filter_filter_none; intros x Hx; unfold from_other in Hx;
    now apply negb_true_iff in Hx.
Qed.

(** [runGiveaway] never publishes a result for an empty participant list:
    both guards stop the run first, and a published winner is one of the
    participants. *)
Lemma runGiveaway_guards_empty_list (text address : string) (w : Form.World)
    (result : GiveawayResult) :
  Form.runGiveaway text address w = Form.Produced result ->
  participants result <> []
  /\ exists p, winner result = Some p /\ In p (participants result).
Proof.
  unfold Form.runGiveaway.
  destruct (String.eqb (Form.trim text) ""); [discriminate|].
  destruct (Nat.eqb_spec (List.length (Form.participantList text)) 0) as [|Hlen];
    [discriminate|].
  intros [= <-]. cbn [participants winner Form.draw].
  assert (Hne : Form.participantList text <> []) by (intros E; rewrite E in Hlen; now apply Hlen).
  split; [exact Hne|].
  destruct (form_winnerIndex_one_step (Form.participantList text)
              (Form.combinedEntropy
                 (Form.validReveals (Form.collected_commitments address w)
                                    (Form.collected_reveals address w))) Hne) as [E B].
  rewrite E. destruct (index_in_range (Form.participantList text) _ B) as (p & Ip & _ & Hin).
  eauto.
Qed.

(** C6 (evaluated on [selectWinner]).  An empty participant list is to be
    refused with an error before any selection step.  [runGiveaway] refuses
    it ([runGiveaway_guards_empty_list]); [selectWinner] has no such check: it
    takes the remainder by the zero length, which is [NaN], reads the list at
    that index, and returns a result whose winner is [undefined], which
    [verifyResult] then accepts. *)
Theorem selectWinner_empty_participants (organizerAddress verifier : string)
    (w : Library.World) :
  let result := Library.selectWinner [] organizerAddress w in
  Library.winnerIndex [] (randomSeed result) = JS.NaN
  /\ winner result = None
  /\ participants result = []
  /\ Library.verifyResult result verifier = true.
Proof.
  cbv zeta. unfold Library.verifyResult, Library.selectWinner, Library.winnerIndex.
  cbn [participants randomSeed winner List.length].
  assert (N : forall a, JS.rem a 0 = JS.NaN) by (intros [|?]; reflexivity).
  rewrite !N. repeat split.
Qed.

(** [selectWinner] stores the digest of the joined participants, the winner,
    the seed, the organizer, the serialised commitments and valid reveals and
    the clock reading taken while hashing. *)
Lemma selectWinner_verificationHash (ps : list string) (organizerAddress : string)
    (w : Library.World) :
  let result := Library.selectWinner ps organizerAddress w in
  let commits := Library.collected_commits organizerAddress w in
  let validReveals := Library.verifyReveals commits (Library.collected_reveals organizerAddress w) in
  verificationHash result
  = sha256_hex
      (JS.join "::"
         [JS.join "|" ps;
          match winner result with Some p => p | None => "" end;
          randomSeed result;
          organizerAddress;
          Library.stringify_commits commits;
          Library.stringify_reveals validReveals;
          JS.toString 10 (Library.now_hash w)]).
Proof. reflexivity. Qed.

(** C7 (evaluated on [runGiveaway]).  The verification hash is to be a digest
    over the participants, the winner, the seed, the organizer, the
    commitments, the valid reveals and a timestamp, distinct from the seed.
    [selectWinner] computes it ([selectWinner_verificationHash]);
    [runGiveaway] stores the seed itself in that field. *)
Theorem runGiveaway_verificationHash_is_the_seed (text address : string) (w : Form.World) :
  (forall participantList,
      verificationHash (Form.draw participantList address w)
      = randomSeed (Form.draw participantList address w))
  /\ match Form.runGiveaway text address w with
     | Form.Produced result => verificationHash result = randomSeed result
     | _ => True
     end.
Proof.
  split; [reflexivity|].
  unfold Form.runGiveaway.
  destruct (String.eqb _ _); [exact I|].
  destruct (Nat.eqb _ _); [exact I | reflexivity].
Qed.

(** The callbacks of [selectWinner] drop a payload that does not parse. *)
Lemma library_callbacks_drop_unparsable (commits : list Library.CommitMessage)
    (reveals : list Library.RevealMessage) :
  Library.on_commit commits JS.Unparsable = JS.Normal commits
  /\ Library.on_commit commits JS.ParsedNull = JS.Normal commits
  /\ Library.on_reveal reveals JS.Unparsable = JS.Normal reveals
  /\ Library.on_reveal reveals JS.ParsedNull = JS.Normal reveals.
Proof. repeat split. Qed.

(** C8 (evaluated on [runGiveaway]).  A payload that does not parse is to be
    dropped without an exception leaving the handler.  The callbacks of
    [selectWinner] catch it ([library_callbacks_drop_unparsable]); those of
    [runGiveaway] call [JSON.parse] outside any [try], so the exception
    leaves the callback.  The collections stay as they were. *)
Theorem runGiveaway_callbacks_throw_on_unparsable (address : string)
    (commitments : list Form.Commitment) (reveals : list Form.Reveal) :
  Form.on_commit address commitments JS.Unparsable = JS.Throw JS.SyntaxError
  /\ Form.on_reveal address reveals JS.Unparsable = JS.Throw JS.SyntaxError
  /\ Form.on_commit address commitments JS.ParsedNull = JS.Throw JS.TypeError
  /\ Form.on_reveal address reveals JS.ParsedNull = JS.Throw JS.TypeError
  /\ deliver (Form.on_commit address) commitments [JS.Unparsable] = commitments
  /\ deliver (Form.on_reveal address) reveals [JS.Unparsable] = reveals.
Proof. repeat split. Qed.

(** C9 (evaluated on [selectWinner]).  The index is to be a position of the
    participant array for every list.  It is one for every non-empty list,
    in both implementations; [selectWinner] and [verifyResult] also compute it
    for the empty list, where it is [NaN]. *)
Theorem winnerIndex_valid_iff_nonempty (ps : list string) (seed entropy : string) :
  ((exists i, Library.winnerIndex ps seed = JS.Int i
              /\ 0 <= i < Z.of_nat (List.length ps))
   <-> ps <> [])
  /\ ((exists i, Form.winnerIndex ps (Form.generateCommitment entropy) = JS.Int i
                 /\ 0 <= i < Z.of_nat (List.length ps))
      <-> ps <> [])
  /\ Library.winnerIndex [] seed = JS.NaN.
Proof.
  split; [|split].
  - split.
    + intros (i & _ & B) ->. cbn in B. lia.
    + intros Hne. destruct (library_winnerIndex_two_step ps seed Hne).
      eauto.
  - split.
    + intros (i & _ & B) ->. cbn in B. lia.
    + intros Hne. destruct (form_winnerIndex_one_step ps entropy Hne). eauto.
  - unfold Library.winnerIndex. cbn [List.length].
    destruct (JS.parseInt16 _); reflexivity.
Qed.

(** C10.  [verifyResult] does not read its second argument: a result is
    accepted or rejected alike whichever organizer is named. *)
Theorem verifyResult_ignores_organizer (result : GiveawayResult) (o1 o2 : string) :
  Library.verifyResult result o1 = Library.verifyResult result o2.
Proof. reflexivity. Qed.


(* ================================================================== *)
(** * Further properties of the code                                    *)
(* ================================================================== *)

(** ** Rendered digests and secrets *)

Lemma is_hex_digit_char (d : Z) : 0 <= d < 16 -> is_hex_digit (JS.digit_char d) = true.
Proof.
  intros H.
  assert (A : forallb (fun x => is_hex_digit (JS.digit_char x)) (map Z.of_nat (seq 0 16)) = true)
    by (vm_compute; reflexivity).
  rewrite forallb_forall in A. apply A, in_range_enum, H.
Qed.

Lemma digit_char_injective (d e : Z) :
  0 <= d < 16 -> 0 <= e < 16 -> JS.digit_char d = JS.digit_char e -> d = e.
Proof.
  intros Hd He E.
  destruct (digit_char_parse d Hd) as (_ & _ & _ & _ & _ & Vd).
  destruct (digit_char_parse e He) as (_ & _ & _ & _ & _ & Ve).
  rewrite E, Ve in Vd. congruence.
Qed.

Lemma nibbles (b : Z) : is_byte b -> 0 <= b / 16 < 16 /\ 0 <= b mod 16 < 16.
Proof. unfold is_byte. intros H. Z.div_mod_to_equations. lia. Qed.

Lemma hex_cons (b : Z) (bs : list Z) :
  is_byte b ->
  hex (b :: bs) = String (JS.digit_char (b / 16)) (String (JS.digit_char (b mod 16)) (hex bs)).
Proof.
  intros H. unfold hex. cbn [map]. rewrite join_empty_cons, hex_of_byte by exact H.
  reflexivity.
Qed.

Lemma hex_shape (bs : list Z) :
  Forall is_byte bs ->
  String.length (hex bs) = (2 * List.length bs)%nat /\ all_hex (hex bs) = true.
Proof.
  induction 1 as [|b bs Hb _ [IHl IHh]]; [split; reflexivity|].
  rewrite hex_cons by exact Hb. destruct (nibbles b Hb) as [Q R].
  cbn [String.length all_hex List.length]. rewrite IHl, IHh, !is_hex_digit_char by assumption.
  split; [lia | reflexivity].
Qed.

Lemma hex_injective (xs ys : list Z) :
  Forall is_byte xs -> Forall is_byte ys -> hex xs = hex ys -> xs = ys.
Proof.
  intros Hx. revert ys.
  induction Hx as [|x xs Hx _ IH]; intros ys Hy E.
  - destruct Hy as [|y ys Hy _]; [reflexivity|].
    rewrite hex_cons in E by exact Hy. discriminate E.
  - destruct Hy as [|y ys Hy Hys].
    + rewrite hex_cons in E by exact Hx. discriminate E.
    + rewrite !hex_cons in E by assumption. injection E as E1 E2 E3.
      destruct (nibbles x Hx) as [Qx Rx], (nibbles y Hy) as [Qy Ry].
      apply digit_char_injective in E1, E2; try assumption.
      f_equal; [|now apply IH].
      rewrite (Z.div_mod x 16), (Z.div_mod y 16) by lia. congruence.
Qed.

Lemma digest_bytes (msg : list Z) : Forall is_byte (SHA256.digest msg).
Proof.
  destruct (digest_shape msg) as (b0 & b1 & b2 & b3 & rest & E & ? & ? & ? & ? & _ & F).
  rewrite E. repeat (constructor; [assumption|]). exact F.
Qed.

(** X1.  Whatever the input, [generateCommitment], [hashSecret],
    [hashParticipants] and [generateVerificationHash] return sixty-four
    characters, all of them lowercase hexadecimal digits. *)
Theorem digests_are_64_lowercase_hex (secret seed organizer : string) (ps : list string)
    (chosen : option string) (commits : list Library.CommitMessage)
    (reveals : list Library.RevealMessage) (now : Z) :
  (String.length (Form.generateCommitment secret) = 64%nat
   /\ all_hex (Form.generateCommitment secret) = true)
  /\ (String.length (Library.hashSecret secret) = 64%nat
      /\ all_hex (Library.hashSecret secret) = true)
  /\ (String.length (Library.hashParticipants ps seed) = 64%nat
      /\ all_hex (Library.hashParticipants ps seed) = true)
  /\ (String.length
        (Library.generateVerificationHash ps chosen seed organizer commits reveals now)
      = 64%nat
      /\ all_hex
           (Library.generateVerificationHash ps chosen seed organizer commits reveals now)
         = true).
Proof.
  assert (A : forall data, String.length (sha256_hex data) = 64%nat
                           /\ all_hex (sha256_hex data) = true).
  { intros data. unfold sha256_hex.
    destruct (hex_shape _ (digest_bytes (JS.encode data))) as [L H].
    rewrite digest_length in L. split; [exact L | exact H]. }
  repeat split; apply A.
Qed.

(** X2.  [generateSecret] renders an array of bytes as two lowercase
    hexadecimal digits per byte, and different arrays give different
    secrets: the padding to two digits keeps the rendering unambiguous. *)
Theorem generateSecret_is_faithful (array array' : list Z) :
  Forall is_byte array -> Forall is_byte array' ->
  String.length (Library.generateSecret array) = (2 * List.length array)%nat
  /\ all_hex (Library.generateSecret array) = true
  /\ (Library.generateSecret array = Library.generateSecret array' -> array = array').
Proof.
  intros H H'. change Library.generateSecret with hex.
  destruct (hex_shape array H) as [L A]. repeat split; try assumption.
  now apply hex_injective.
Qed.

Lemma generateSecret_is_faithful_witness :
  String.length (Library.generateSecret [0; 1; 35; 255]) = (2 * 4)%nat
  /\ all_hex (Library.generateSecret [0; 1; 35; 255]) = true
  /\ (Library.generateSecret [0; 1; 35; 255] = Library.generateSecret [0; 18; 3; 255]
      -> [0; 1; 35; 255] = [0; 18; 3; 255]).
Proof.
  apply (generateSecret_is_faithful [0; 1; 35; 255] [0; 18; 3; 255]);
    repeat constructor; unfold is_byte; lia.
Defined.

(** ** The draw, byte by byte *)

Lemma strict_eq_true_iff (a b : option string) : strict_eq a b = true <-> a = b.
Proof.
  destruct a as [x|], b as [y|]; cbn; try (split; congruence).
  rewrite String.eqb_eq. split; congruence.
Qed.

Lemma spec_winner_empty (seed : string) : Spec.winner [] seed = None.
Proof. unfold Spec.winner. now destruct (Z.to_nat _). Qed.

Lemma library_pick (ps : list string) (seed : string) :
  JS.index ps (Library.winnerIndex ps seed) = Spec.winner ps seed.
Proof.
  destruct ps as [|p ps].
  - rewrite spec_winner_empty. unfold Library.winnerIndex. cbn [List.length].
    now destruct (JS.parseInt16 _).
  - destruct (library_winnerIndex_two_step (p :: ps) seed) as [E B]; [discriminate|].
    rewrite E. unfold Spec.winner. cbn [JS.index].
    destruct (Z.ltb_spec (Spec.winnerIndex (p :: ps) seed) 0); [lia | reflexivity].
Qed.

(** X3.  [selectWinner] publishes the participant found at the index that
    the first four bytes of SHA-256 over the joined participants, a bar and
    the published seed give, read most significant byte first and reduced
    modulo the number of participants; for an empty list that is no
    participant at all. *)
Theorem selectWinner_winner_from_published_seed
    (ps : list string) (organizerAddress : string) (w : Library.World) :
  let result := Library.selectWinner ps organizerAddress w in
  winner result = Spec.winner (participants result) (randomSeed result)
  /\ participants result = ps.
Proof.
  cbv zeta. unfold Library.selectWinner. cbn [winner participants randomSeed].
  split; [apply library_pick | reflexivity].
Qed.

(** X4.  [verifyResult] accepts a result exactly when its winner is the
    participant the two-step derivation gives on the participants and the
    seed stored in it; the timestamp and the verification hash of the result
    play no part. *)
Theorem verifyResult_characterised (result : GiveawayResult) (organizerAddress : string) :
  (Library.verifyResult result organizerAddress = true
   <-> winner result = Spec.winner (participants result) (randomSeed result))
  /\ forall t h,
       Library.verifyResult
         (mkResult (winner result) t (participants result) (randomSeed result) h)
         organizerAddress
       = Library.verifyResult result organizerAddress.
Proof.
  split; [|reflexivity].
  unfold Library.verifyResult.
  change (JS.rem _ _) with (Library.winnerIndex (participants result) (randomSeed result)).
  rewrite library_pick, strict_eq_true_iff. split; congruence.
Qed.

(** X5.  A result published by [runGiveaway] carries the non-empty
    participant list read from the text, as its seed the rendered SHA-256
    digest of the combined entropy, and as its winner the participant at the
    index that the first four bytes of that same digest give, read most
    significant byte first and reduced modulo the number of participants:
    always one of the listed participants. *)
Theorem runGiveaway_winner_from_seed_bytes (text address : string) (w : Form.World)
    (result : GiveawayResult) :
  Form.runGiveaway text address w = Form.Produced result ->
  let valid := Form.validReveals (Form.collected_commitments address w)
                                 (Form.collected_reveals address w) in
  let digest := SHA256.digest (JS.encode (Form.combinedEntropy valid)) in
  let n := Z.of_nat (List.length (participants result)) in
  randomSeed result = hex digest
  /\ participants result = Form.participantList text
  /\ participants result <> []
  /\ winner result
     = nth_error (participants result)
                 (Z.to_nat (Spec.firstFourBytesAsUnsignedInt digest mod n))
  /\ exists p, winner result = Some p /\ In p (participants result).
Proof.
  unfold Form.runGiveaway.
  destruct (String.eqb (Form.trim text) ""); [discriminate|].
  destruct (Nat.eqb_spec (List.length (Form.participantList text)) 0) as [|Hlen];
    [discriminate|].
  intros [= <-]. cbv zeta. cbn [participants winner randomSeed Form.draw].
  assert (Hne : Form.participantList text <> []) by (intros E; rewrite E in Hlen; now apply Hlen).
  split; [reflexivity|]. split; [reflexivity|]. split; [exact Hne|].
  destruct (form_winnerIndex_one_step (Form.participantList text)
              (Form.combinedEntropy
                 (Form.validReveals (Form.collected_commitments address w)
                                    (Form.collected_reveals address w))) Hne) as [E B].
  rewrite E.
  destruct (index_in_range (Form.participantList text) _ B) as (p & Ip & Np & Hin).
  rewrite Ip, Np. split; [reflexivity | eauto].
Qed.

Lemma runGiveaway_winner_from_seed_bytes_witness :
  let result := Form.draw ["A"; "B"; "C"] "alice" Examples.alone in
  let valid := Form.validReveals (Form.collected_commitments "alice" Examples.alone)
                                 (Form.collected_reveals "alice" Examples.alone) in
  let digest := SHA256.digest (JS.encode (Form.combinedEntropy valid)) in
  let n := Z.of_nat (List.length (participants result)) in
  randomSeed result = hex digest
  /\ participants result = Form.participantList Examples.three_lines
  /\ participants result <> []
  /\ winner result
     = nth_error (participants result)
                 (Z.to_nat (Spec.firstFourBytesAsUnsignedInt digest mod n))
  /\ exists p, winner result = Some p /\ In p (participants result).
Proof.
  apply (runGiveaway_winner_from_seed_bytes Examples.three_lines "alice" Examples.alone).
  reflexivity.
Defined.

(** ** The participant list read from the text area *)

Lemma blank_skip_space (s : string) : blank (JS.skip_space s) = blank s.
Proof.
  induction s as [|c s IH]; [reflexivity|]. cbn [JS.skip_space blank].
  destruct (JS.is_space c) eqn:E; [exact IH|]. cbn [blank]. now rewrite E.
Qed.

Lemma trim_end_empty_iff (s : string) : Form.trim_end s = "" <-> blank s = true.
Proof.
  induction s as [|c s IH]; [now split|]. cbn [Form.trim_end blank].
  destruct (Form.trim_end s) as [|k kept].
  - assert (B : blank s = true) by now apply IH.
    rewrite B, andb_true_r. destruct (JS.is_space c); split; congruence.
  - assert (B : blank s = false).
    { destruct (blank s); [|reflexivity]. discriminate (proj2 IH eq_refl). }
    rewrite B, andb_false_r. split; discriminate.
Qed.

Lemma trim_empty_iff (s : string) : Form.trim s = "" <-> blank s = true.
Proof. unfold Form.trim. now rewrite trim_end_empty_iff, blank_skip_space. Qed.

Lemma line_feed_is_space (c : ascii) : JS.code c = 10 -> JS.is_space c = true.
Proof. intros E. unfold JS.is_space. now rewrite E. Qed.

Lemma blank_lines (s : string) : forallb blank (Form.split_lines s) = blank s.
Proof.
  induction s as [|c s IH]; [reflexivity|]. cbn [Form.split_lines blank].
  destruct (Z.eqb_spec (JS.code c) 10) as [E|_].
  - cbn [forallb blank]. now rewrite IH, (line_feed_is_space c E).
  - rewrite <- IH. destruct (Form.split_lines s) as [|line more]; cbn [forallb blank].
    + now rewrite !andb_true_r.
    + now rewrite andb_assoc.
Qed.

Lemma participantList_empty_iff (text : string) :
  Form.participantList text = [] <-> blank text = true.
Proof.
  unfold Form.participantList. rewrite <- blank_lines.
  induction (Form.split_lines text) as [|line more IH]; [now split|].
  cbn [map filter forallb].
  destruct (Form.trim line) as [|c t] eqn:T.
  - cbn [String.length Nat.ltb Nat.leb].
    rewrite (proj1 (trim_empty_iff line) T). exact IH.
  - cbn [String.length Nat.ltb Nat.leb].
    assert (B : blank line = false).
    { destruct (blank line) eqn:B; [|reflexivity].
      apply trim_empty_iff in B. congruence. }
    rewrite B. split; discriminate.
Qed.

(** X6.  [runGiveaway] refuses a text exactly when it holds nothing but
    white space, and then with its first message; on any other text it runs
    the draw on the participant list.  Once the text has passed the first
    guard the list is not empty, so the second guard never fires. *)
Theorem runGiveaway_second_guard_never_fires (text address : string) (w : Form.World) :
  Form.runGiveaway text address w
  = (if blank text then Form.AddParticipantsFirst
     else Form.Produced (Form.draw (Form.participantList text) address w))
  /\ Form.runGiveaway text address w <> Form.NoValidParticipants
  /\ (Form.participantList text = [] <-> blank text = true).
Proof.
  assert (E : Form.runGiveaway text address w
              = if blank text then Form.AddParticipantsFirst
                else Form.Produced (Form.draw (Form.participantList text) address w)).
  { unfold Form.runGiveaway.
    destruct (String.eqb_spec (Form.trim text) "") as [T|T].
    - apply trim_empty_iff in T. now rewrite T.
    - destruct (blank text) eqn:B; [apply trim_empty_iff in B; contradiction|].
      destruct (Form.participantList text) as [|p ps] eqn:L; [|reflexivity].
      apply participantList_empty_iff in L. congruence. }
  split; [exact E|]. split; [|apply participantList_empty_iff].
  rewrite E. destruct (blank text); discriminate.
Qed.

Lemma trim_end_idempotent (s : string) : Form.trim_end (Form.trim_end s) = Form.trim_end s.
Proof.
  induction s as [|c s IH]; [reflexivity|]. cbn [Form.trim_end].
  destruct (Form.trim_end s) as [|k kept] eqn:T.
  - destruct (JS.is_space c) eqn:E; [reflexivity|]. cbn [Form.trim_end]. now rewrite E.
  - cbn [Form.trim_end] in *. now rewrite IH.
Qed.

Lemma skip_space_head (s : string) :
  JS.skip_space s = "" \/ exists c r, JS.skip_space s = String c r /\ JS.is_space c = false.
Proof.
  induction s as [|c s IH]; [now left|]. cbn [JS.skip_space].
  destruct (JS.is_space c) eqn:E; [exact IH | right; eauto].
Qed.

Lemma trim_end_head (c : ascii) (r : string) :
  JS.is_space c = false -> exists r', Form.trim_end (String c r) = String c r'.
Proof.
  intros E. cbn [Form.trim_end]. destruct (Form.trim_end r); [rewrite E|]; eauto.
Qed.

Lemma trim_idempotent (s : string) : Form.trim (Form.trim s) = Form.trim s.
Proof.
  unfold Form.trim.
  destruct (skip_space_head s) as [E|(c & r & E & Hc)]; rewrite E; [reflexivity|].
  destruct (trim_end_head c r Hc) as (r' & T). rewrite T.
  cbn [JS.skip_space]. rewrite Hc, <- T. apply trim_end_idempotent.
Qed.

(** X7.  Every entry of the participant list is a line of the text with its
    surrounding white space removed, is not empty, and has no white space
    left at either end. *)
Theorem participantList_entries_are_trimmed (text p : string) :
  In p (Form.participantList text) ->
  p <> ""
  /\ Form.trim p = p
  /\ exists line, In line (Form.split_lines text) /\ p = Form.trim line.
Proof.
  unfold Form.participantList. intros H.
  apply filter_In in H. destruct H as [H L].
  apply in_map_iff in H. destruct H as (line & <- & Hline).
  split; [|split].
  - intros E. rewrite E in L. discriminate L.
  - apply trim_idempotent.
  - eauto.
Qed.

Lemma participantList_entries_are_trimmed_witness :
  "B" <> ""
  /\ Form.trim "B" = "B"
  /\ exists line, In line (Form.split_lines Examples.three_lines) /\ "B" = Form.trim line.
Proof.
  apply (participantList_entries_are_trimmed Examples.three_lines "B").
  right. left. reflexivity.
Defined.

Lemma split_lines_nonempty (s : string) : Form.split_lines s <> [].
Proof.
  destruct s as [|c s]; cbn [Form.split_lines]; [discriminate|].
  destruct (JS.code c =? 10); [discriminate|].
  destruct (Form.split_lines s); discriminate.
Qed.

Lemma split_lines_app (a b : string) :
  Form.split_lines (String.append a (String.append Examples.LF b))
  = Form.split_lines a ++ Form.split_lines b.
Proof.
  induction a as [|c a IH]; [reflexivity|].
  cbn [String.append Form.split_lines]. rewrite IH.
  destruct (JS.code c =? 10); [reflexivity|].
  pose proof (split_lines_nonempty a) as N.
  destruct (Form.split_lines a); [contradiction | reflexivity].
Qed.

(** X8.  The participant list of two texts put on separate lines is the list
    of the first followed by the list of the second: lines are read one by
    one, blank lines contribute nothing, and a name that occurs twice is
    listed twice. *)
Theorem participantList_of_joined_texts (a b : string) :
  Form.participantList (String.append a (String.append Examples.LF b))
  = Form.participantList a ++ Form.participantList b.
Proof.
  unfold Form.participantList. now rewrite split_lines_app, map_app, filter_app.
Qed.


(** ** What the collections of [selectWinner] hold *)

Lemma library_collected (organizerAddress : string) (w : Library.World) :
  Library.collected_commits organizerAddress w
  = Library.mkCommit organizerAddress (Library.hashSecret (Library.ourSecret w))
                     (Library.now_commit w)
    :: accepted_commits (Library.heard_commit w)
  /\ Library.collected_reveals organizerAddress w
     = Library.mkReveal organizerAddress (Library.ourSecret w) (Library.now_reveal w)
       :: accepted_reveals (Library.heard_reveal w).
Proof.
  unfold Library.collected_commits, Library.collected_reveals.
  now rewrite library_deliver_commit, library_deliver_reveal.
Qed.

(** X9.  When the reveal window closes, the commitments of [selectWinner]
    are its own commitment followed by every delivered commitment whose
    [commitment] is not empty, in delivery order, and its reveals are its own
    reveal followed by every delivered reveal whose [secret] is not empty.
    Nothing else is kept: not a message without payload, not one that fails
    to parse or parses to [null], not a reveal heard by the commit callback
    nor a commitment heard by the reveal callback.  Nothing is removed
    either: neither a repeated sender nor the organizer's own address. *)
Theorem selectWinner_collections (organizerAddress : string) (w : Library.World) :
  Library.collected_commits organizerAddress w
  = Library.mkCommit organizerAddress (Library.hashSecret (Library.ourSecret w))
                     (Library.now_commit w)
    :: accepted_commits (Library.heard_commit w)
  /\ Library.collected_reveals organizerAddress w
     = Library.mkReveal organizerAddress (Library.ourSecret w) (Library.now_reveal w)
       :: accepted_reveals (Library.heard_reveal w).
Proof.
  unfold Library.collected_commits, Library.collected_reveals.
  now rewrite library_deliver_commit, library_deliver_reveal.
Qed.

Lemma accepted_commits_has_data (inbox : list (JS.inbound Library.wire)) :
  accepted_commits (filter has_data inbox) = accepted_commits inbox.
Proof.
  unfold accepted_commits.
  induction inbox as [|m inbox IH]; [reflexivity|].
  destruct m as [| | |data]; cbn [filter has_data flat_map app]; try exact IH.
  now rewrite IH.
Qed.

Lemma accepted_reveals_has_data (inbox : list (JS.inbound Library.wire)) :
  accepted_reveals (filter has_data inbox) = accepted_reveals inbox.
Proof.
  unfold accepted_reveals.
  induction inbox as [|m inbox IH]; [reflexivity|].
  destruct m as [| | |data]; cbn [filter has_data flat_map app]; try exact IH.
  now rewrite IH.
Qed.

(** X10.  Messages without payload, messages that fail to parse and
    messages that parse to [null] leave no trace in [selectWinner]: the
    result is the one of the run in which they were never delivered. *)
Theorem selectWinner_unaffected_by_unreadable_messages
    (ps : list string) (organizerAddress secret : string)
    (heard_commit heard_reveal : list (JS.inbound Library.wire)) (t1 t2 t3 t4 : Z) :
  Library.selectWinner ps organizerAddress
    (Library.mkWorld secret t1 heard_commit t2 heard_reveal t3 t4)
  = Library.selectWinner ps organizerAddress
      (Library.mkWorld secret t1 (filter has_data heard_commit)
                       t2 (filter has_data heard_reveal) t3 t4).
Proof.
  unfold Library.selectWinner.
  destruct (library_collected organizerAddress
              (Library.mkWorld secret t1 heard_commit t2 heard_reveal t3 t4)) as [C R].
  destruct (library_collected organizerAddress
              (Library.mkWorld secret t1 (filter has_data heard_commit)
                               t2 (filter has_data heard_reveal) t3 t4)) as [C' R'].
  rewrite C, R, C', R'. cbn [Library.heard_commit Library.heard_reveal Library.ourSecret
    Library.now_commit Library.now_reveal Library.now_hash Library.now_result].
  now rewrite accepted_commits_has_data, accepted_reveals_has_data.
Qed.

(** ** The organizer's own reveal *)

Lemma library_keeps_own (organizerAddress secret : string) (t t' : Z)
    (rest : list Library.CommitMessage) :
  library_keeps (Library.mkCommit organizerAddress (Library.hashSecret secret) t :: rest)
                (Library.mkReveal organizerAddress secret t') = true.
Proof.
  unfold library_keeps. cbn [find Library.cm_participantId Library.rm_participantId
    Library.rm_secret Library.cm_commitment].
  now rewrite !String.eqb_refl.
Qed.

Lemma form_keeps_own (address secret : string) (t t' : Z) (rest : list Form.Commitment) :
  form_keeps (Form.mkCommitment address (Form.generateCommitment secret) t :: rest)
             (Form.mkReveal address secret t') = true.
Proof.
  unfold form_keeps. cbn [existsb Form.c_address Form.r_address Form.c_commitment
    Form.r_secret].
  now rewrite !String.eqb_refl.
Qed.

(** X11.  In [selectWinner] the organizer's own reveal is always valid and
    always the first of the valid reveals, whatever else was delivered: the
    seed is the hash of the organizer's secret followed by the other valid
    secrets, joined with bars. *)
Theorem selectWinner_own_reveal_is_valid
    (ps : list string) (organizerAddress : string) (w : Library.World) :
  exists others,
    Library.verifyReveals (Library.collected_commits organizerAddress w)
                          (Library.collected_reveals organizerAddress w)
    = Library.mkReveal organizerAddress (Library.ourSecret w) (Library.now_reveal w) :: others
    /\ incl others (accepted_reveals (Library.heard_reveal w))
    /\ randomSeed (Library.selectWinner ps organizerAddress w)
       = Library.hashSecret
           (JS.join "|" (Library.ourSecret w :: map Library.rm_secret others)).
Proof.
  unfold Library.selectWinner. cbn [randomSeed]. unfold Library.combinedEntropy.
  destruct (library_collected organizerAddress w) as [C R].
  rewrite verifyReveals_filter, C, R. cbn [filter]. rewrite library_keeps_own.
  eexists. split; [reflexivity|]. split; [|reflexivity].
  intros r Hr. now apply filter_In in Hr.
Qed.

(** X12.  In [runGiveaway] too the organizer's own reveal is always valid
    and the first of the valid reveals: the seed is the hash of the sorted
    concatenation of the organizer's secret and the other valid secrets. *)
Theorem runGiveaway_own_reveal_is_valid
    (participantList : list string) (address : string) (w : Form.World) :
  exists others,
    Form.validReveals (Form.collected_commitments address w)
                      (Form.collected_reveals address w)
    = Form.mkReveal address (Form.secret w) (Form.now_reveal w) :: others
    /\ incl others (parsed (Form.heard_reveal w))
    /\ randomSeed (Form.draw participantList address w)
       = Form.generateCommitment
           (JS.join "" (JS.sort (Form.secret w :: map Form.r_secret others))).
Proof.
  unfold Form.draw. cbn [randomSeed]. unfold Form.combinedEntropy.
  rewrite validReveals_filter.
  unfold Form.collected_commitments, Form.collected_reveals.
  rewrite form_deliver_commit, form_deliver_reveal. cbn [app filter].
  rewrite form_keeps_own.
  eexists. split; [reflexivity|]. split; [|reflexivity].
  intros r Hr. apply filter_In in Hr. destruct Hr as [Hr _].
  now apply filter_In in Hr.
Qed.

(** ** The verification loops as operations on lists *)

Lemma filter_idempotent {A : Type} (f : A -> bool) (xs : list A) :
  filter f (filter f xs) = filter f xs.
Proof.
  induction xs as [|x xs IH]; [reflexivity|]. cbn [filter].
  destruct (f x) eqn:E; [cbn [filter]; now rewrite E, IH | exact IH].
Qed.

(** X13.  Both verification loops judge each reveal on its own: the valid
    reveals of two batches put end to end are the valid reveals of the first
    followed by those of the second, in the order given, and verifying the
    valid reveals again against the same commitments removes nothing. *)
Theorem verification_distributes_and_is_idempotent :
  (forall commits r1 r2,
      Library.verifyReveals commits (r1 ++ r2)
      = Library.verifyReveals commits r1 ++ Library.verifyReveals commits r2)
  /\ (forall commits reveals,
         Library.verifyReveals commits (Library.verifyReveals commits reveals)
         = Library.verifyReveals commits reveals)
  /\ (forall commitments r1 r2,
         Form.validReveals commitments (r1 ++ r2)
         = Form.validReveals commitments r1 ++ Form.validReveals commitments r2)
  /\ (forall commitments reveals,
         Form.validReveals commitments (Form.validReveals commitments reveals)
         = Form.validReveals commitments reveals).
Proof.
  repeat split; intros.
  - now rewrite !verifyReveals_filter, filter_app.
  - now rewrite !verifyReveals_filter, filter_idempotent.
  - now rewrite !validReveals_filter, filter_app.
  - now rewrite !validReveals_filter, filter_idempotent.
Qed.

(** ** Messages that do not change the outcome *)

Lemma find_app {A : Type} (p : A -> bool) (xs ys : list A) :
  find p (xs ++ ys) = match find p xs with Some x => Some x | None => find p ys end.
Proof.
  induction xs as [|x xs IH]; [reflexivity|]. cbn [app find].
  destruct (p x); [reflexivity | exact IH].
Qed.

Lemma find_skip {A : Type} (p : A -> bool) (xs ys : list A) (x : A) :
  p x = false -> find p (xs ++ x :: ys) = find p (xs ++ ys).
Proof. intros E. rewrite !find_app. cbn [find]. now rewrite E. Qed.

Lemma find_shadowed {A : Type} (p : A -> bool) (xs ys : list A) (x c : A) :
  In c xs -> p c = p x -> find p (xs ++ x :: ys) = find p (xs ++ ys).
Proof.
  intros Hc E. destruct (p x) eqn:Px; [|now apply find_skip].
  rewrite !find_app. destruct (find p xs) eqn:F; [reflexivity|].
  rewrite (find_none _ _ F c Hc) in E. discriminate E.
Qed.

Lemma accepted_reveals_insert (before after : list (JS.inbound Library.wire))
    (r : Library.RevealMessage) :
  accepted_reveals (before ++ JS.Parsed (Library.RevealData r) :: after)
  = accepted_reveals before
    ++ (if String.eqb (Library.rm_secret r) "" then [] else [r])
    ++ accepted_reveals after.
Proof. unfold accepted_reveals. now rewrite flat_map_app. Qed.

Lemma accepted_commits_insert (before after : list (JS.inbound Library.wire))
    (c : Library.CommitMessage) :
  accepted_commits (before ++ JS.Parsed (Library.CommitData c) :: after)
  = accepted_commits before
    ++ (if String.eqb (Library.cm_commitment c) "" then [] else [c])
    ++ accepted_commits after.
Proof. unfold accepted_commits. now rewrite flat_map_app. Qed.

Lemma accepted_app (before after : list (JS.inbound Library.wire)) :
  accepted_commits (before ++ after) = accepted_commits before ++ accepted_commits after
  /\ accepted_reveals (before ++ after) = accepted_reveals before ++ accepted_reveals after.
Proof. unfold accepted_commits, accepted_reveals. now rewrite !flat_map_app. Qed.

(** X14.  A reveal that would not be valid on its own against the
    commitments of the run (its sender has no commitment, or the first
    commitment of its sender is not the hash of its secret) changes nothing
    in [selectWinner], wherever among the reveals it is delivered: the result
    is the one of the run without it. *)
Theorem selectWinner_unaffected_by_invalid_reveal
    (ps : list string) (organizerAddress secret : string)
    (heard_commit before after : list (JS.inbound Library.wire))
    (r : Library.RevealMessage) (t1 t2 t3 t4 : Z) :
  ~ In r (Library.verifyReveals
            (Library.collected_commits organizerAddress
               (Library.mkWorld secret t1 heard_commit t2 (before ++ after) t3 t4))
            [r]) ->
  Library.selectWinner ps organizerAddress
    (Library.mkWorld secret t1 heard_commit t2
       (before ++ JS.Parsed (Library.RevealData r) :: after) t3 t4)
  = Library.selectWinner ps organizerAddress
      (Library.mkWorld secret t1 heard_commit t2 (before ++ after) t3 t4).
Proof.
  intros H. unfold Library.selectWinner.
  destruct (library_collected organizerAddress
              (Library.mkWorld secret t1 heard_commit t2
                 (before ++ JS.Parsed (Library.RevealData r) :: after) t3 t4)) as [C R].
  destruct (library_collected organizerAddress
              (Library.mkWorld secret t1 heard_commit t2 (before ++ after) t3 t4)) as [C' R'].
  rewrite C' in H. rewrite C, R, C', R'.
  cbn [Library.heard_commit Library.heard_reveal Library.ourSecret Library.now_commit
       Library.now_reveal Library.now_hash Library.now_result] in *.
  set (commits := _ :: accepted_commits heard_commit) in *.
  assert (K : library_keeps commits r = false).
  { rewrite verifyReveals_filter in H. cbn [filter] in H.
    destruct (library_keeps commits r); [exfalso; apply H; now left | reflexivity]. }
  assert (E : Library.verifyReveals commits
                (Library.mkReveal organizerAddress secret t2
                 :: accepted_reveals (before ++ JS.Parsed (Library.RevealData r) :: after))
              = Library.verifyReveals commits
                  (Library.mkReveal organizerAddress secret t2
                   :: accepted_reveals (before ++ after))).
  { rewrite !verifyReveals_filter, accepted_reveals_insert, (proj2 (accepted_app before after)).
    cbn [filter]. rewrite !filter_app.
    destruct (String.eqb (Library.rm_secret r) ""); cbn [filter]; [reflexivity|].
    now rewrite K. }
  now rewrite E.
Qed.

Lemma selectWinner_unaffected_by_invalid_reveal_witness :
  Library.selectWinner ["A"; "B"; "C"] "alice"
    (Library.mkWorld "s1" 1000
       [Examples.commit_of "bob" "x" 1001; Examples.commit_of "carol" "y" 1002] 2000
       ([Examples.reveal_of "bob" "x" 2001]
        ++ JS.Parsed (Library.RevealData (Library.mkReveal "mallory" "m" 2003))
        :: [Examples.reveal_of "carol" "y" 2002]) 3000 3001)
  = Library.selectWinner ["A"; "B"; "C"] "alice"
      (Library.mkWorld "s1" 1000
         [Examples.commit_of "bob" "x" 1001; Examples.commit_of "carol" "y" 1002] 2000
         ([Examples.reveal_of "bob" "x" 2001] ++ [Examples.reveal_of "carol" "y" 2002])
         3000 3001).
Proof.
  apply (selectWinner_unaffected_by_invalid_reveal ["A"; "B"; "C"] "alice" "s1"
           [Examples.commit_of "bob" "x" 1001; Examples.commit_of "carol" "y" 1002]
           [Examples.reveal_of "bob" "x" 2001] [Examples.reveal_of "carol" "y" 2002]
           (Library.mkReveal "mallory" "m" 2003) 1000 2000 3000 3001).
  vm_compute. intros H. exact H.
Defined.

(** X15.  In [selectWinner] the first-seen commitment of a sender stands: a
    commitment delivered later from a sender who already has one, whatever
    hash it carries, changes neither the valid reveals, nor the seed, nor the
    winner. *)
Theorem selectWinner_first_commitment_stands
    (ps : list string) (organizerAddress secret : string)
    (before after heard_reveal : list (JS.inbound Library.wire))
    (late : Library.CommitMessage) (t1 t2 t3 t4 : Z) :
  (exists c,
      In c (Library.collected_commits organizerAddress
              (Library.mkWorld secret t1 before t2 heard_reveal t3 t4))
      /\ Library.cm_participantId c = Library.cm_participantId late) ->
  let without :=
    Library.mkWorld secret t1 (before ++ after) t2 heard_reveal t3 t4 in
  let with_late :=
    Library.mkWorld secret t1 (before ++ JS.Parsed (Library.CommitData late) :: after)
                    t2 heard_reveal t3 t4 in
  Library.verifyReveals (Library.collected_commits organizerAddress with_late)
                        (Library.collected_reveals organizerAddress with_late)
  = Library.verifyReveals (Library.collected_commits organizerAddress without)
                          (Library.collected_reveals organizerAddress without)
  /\ randomSeed (Library.selectWinner ps organizerAddress with_late)
     = randomSeed (Library.selectWinner ps organizerAddress without)
  /\ winner (Library.selectWinner ps organizerAddress with_late)
     = winner (Library.selectWinner ps organizerAddress without).
Proof.
  intros (c & Hc & Pc) without with_late.
  assert (E : Library.verifyReveals (Library.collected_commits organizerAddress with_late)
                                    (Library.collected_reveals organizerAddress with_late)
              = Library.verifyReveals (Library.collected_commits organizerAddress without)
                                      (Library.collected_reveals organizerAddress without)).
  { destruct (library_collected organizerAddress with_late) as [C R].
    destruct (library_collected organizerAddress without) as [C' R'].
    destruct (library_collected organizerAddress
                (Library.mkWorld secret t1 before t2 heard_reveal t3 t4)) as [C0 _].
    rewrite C0 in Hc. rewrite C, R, C', R'. subst without with_late.
    cbn [Library.heard_commit Library.heard_reveal Library.ourSecret Library.now_commit
         Library.now_reveal] in *.
    rewrite accepted_commits_insert, (proj1 (accepted_app before after)).
    rewrite !verifyReveals_filter.
    destruct (String.eqb (Library.cm_commitment late) ""); [reflexivity|].
    apply filter_ext. intros reveal. unfold library_keeps.
    cbn [app]. rewrite !app_comm_cons.
    erewrite find_shadowed; [reflexivity | exact Hc |].
    cbn beta. now rewrite Pc. }
  split; [exact E|]. unfold Library.selectWinner. cbn [randomSeed winner]. now rewrite E.
Qed.

Lemma selectWinner_first_commitment_stands_witness :
  let without :=
    Library.mkWorld "s1" 1000 ([Examples.commit_of "dave" "a" 1001] ++ []) 2000
                    [Examples.reveal_of "dave" "b" 2001] 3000 3001 in
  let with_late :=
    Library.mkWorld "s1" 1000
      ([Examples.commit_of "dave" "a" 1001]
       ++ JS.Parsed (Library.CommitData (Library.mkCommit "dave" (Library.hashSecret "b") 1002))
       :: []) 2000
      [Examples.reveal_of "dave" "b" 2001] 3000 3001 in
  Library.verifyReveals (Library.collected_commits "alice" with_late)
                        (Library.collected_reveals "alice" with_late)
  = Library.verifyReveals (Library.collected_commits "alice" without)
                          (Library.collected_reveals "alice" without)
  /\ randomSeed (Library.selectWinner ["A"; "B"; "C"] "alice" with_late)
     = randomSeed (Library.selectWinner ["A"; "B"; "C"] "alice" without)
  /\ winner (Library.selectWinner ["A"; "B"; "C"] "alice" with_late)
     = winner (Library.selectWinner ["A"; "B"; "C"] "alice" without).
Proof.
  apply (selectWinner_first_commitment_stands ["A"; "B"; "C"] "alice" "s1"
           [Examples.commit_of "dave" "a" 1001] [] [Examples.reveal_of "dave" "b" 2001]
           (Library.mkCommit "dave" (Library.hashSecret "b") 1002) 1000 2000 3000 3001).
  exists (Library.mkCommit "dave" (Library.hashSecret "a") 1001).
  split; [vm_compute; right; left; reflexivity | reflexivity].
Defined.

Lemma form_collected (address : string) (w : Form.World) :
  Form.collected_commitments address w
  = Form.mkCommitment address (Form.generateCommitment (Form.secret w)) (Form.now_commit w)
    :: filter (fun c => from_other address (Form.c_address c)) (parsed (Form.heard_commit w))
  /\ Form.collected_reveals address w
     = Form.mkReveal address (Form.secret w) (Form.now_reveal w)
       :: filter (fun r => from_other address (Form.r_address r)) (parsed (Form.heard_reveal w)).
Proof.
  unfold Form.collected_commitments, Form.collected_reveals.
  now rewrite form_deliver_commit, form_deliver_reveal.
Qed.

Lemma parsed_insert {A : Type} (before after : list (JS.inbound A)) (data : A) :
  parsed (before ++ JS.Parsed data :: after) = parsed before ++ data :: parsed after.
Proof. unfold parsed. now rewrite flat_map_app. Qed.

Lemma parsed_app {A : Type} (before after : list (JS.inbound A)) :
  parsed (before ++ after) = parsed before ++ parsed after.
Proof. unfold parsed. now rewrite flat_map_app. Qed.

Lemma form_keeps_insert (xs ys : list Form.Commitment) (c : Form.Commitment) (r : Form.Reveal) :
  form_keeps (xs ++ c :: ys) r
  = form_keeps (xs ++ ys) r
    || (String.eqb (Form.c_address c) (Form.r_address r)
        && String.eqb (Form.c_commitment c) (Form.generateCommitment (Form.r_secret r))).
Proof.
  unfold form_keeps. rewrite !existsb_app. cbn [existsb].
  destruct (existsb _ xs), (existsb _ ys), (String.eqb (Form.c_address c) _),
    (String.eqb (Form.c_commitment c) _); reflexivity.
Qed.

(** X16.  A commitment that none of the collected reveals opens (no
    collected reveal has both its sender and a secret that hashes to it)
    changes nothing in [runGiveaway], wherever among the commitments it is
    delivered: a sender who commits and never reveals leaves the result as
    it would have been without that commitment. *)
Theorem runGiveaway_unaffected_by_unopened_commitment
    (participantList : list string) (address secret : string)
    (before after : list (JS.inbound Form.Commitment))
    (heard_reveal : list (JS.inbound Form.Reveal)) (c : Form.Commitment) (t1 t2 t3 : Z) :
  (forall r,
      In r (Form.collected_reveals address
              (Form.mkWorld secret t1 (before ++ after) t2 heard_reveal t3)) ->
      ~ (Form.r_address r = Form.c_address c
         /\ Form.generateCommitment (Form.r_secret r) = Form.c_commitment c)) ->
  Form.draw participantList address
    (Form.mkWorld secret t1 (before ++ JS.Parsed c :: after) t2 heard_reveal t3)
  = Form.draw participantList address
      (Form.mkWorld secret t1 (before ++ after) t2 heard_reveal t3).
Proof.
  intros H. unfold Form.draw.
  destruct (form_collected address
              (Form.mkWorld secret t1 (before ++ JS.Parsed c :: after) t2 heard_reveal t3))
    as [C R].
  destruct (form_collected address
              (Form.mkWorld secret t1 (before ++ after) t2 heard_reveal t3)) as [C' R'].
  rewrite R' in H. rewrite C, R, C', R'.
  cbn [Form.heard_commit Form.heard_reveal Form.secret Form.now_commit Form.now_reveal
       Form.now_result] in *.
  set (reveals := _ :: filter _ (parsed heard_reveal)) in *.
  assert (E : Form.validReveals
                (Form.mkCommitment address (Form.generateCommitment secret) t1
                 :: filter (fun c0 => from_other address (Form.c_address c0))
                           (parsed (before ++ JS.Parsed c :: after))) reveals
              = Form.validReveals
                  (Form.mkCommitment address (Form.generateCommitment secret) t1
                   :: filter (fun c0 => from_other address (Form.c_address c0))
                             (parsed (before ++ after))) reveals).
  { rewrite !validReveals_filter, parsed_insert, parsed_app, !filter_app. cbn [filter].
    destruct (from_other address (Form.c_address c)); [|reflexivity].
    apply filter_ext_in. intros r Hr.
    rewrite !app_comm_cons, form_keeps_insert.
    destruct (String.eqb_spec (Form.c_address c) (Form.r_address r)) as [A|_];
      [|now rewrite orb_false_r].
    destruct (String.eqb_spec (Form.c_commitment c)
                (Form.generateCommitment (Form.r_secret r))) as [B|_];
      [|now rewrite orb_false_r].
    exfalso. apply (H r Hr). now split. }
  now rewrite E.
Qed.

Lemma runGiveaway_unaffected_by_unopened_commitment_witness :
  Form.draw ["A"; "B"; "C"] "alice"
    (Form.mkWorld "s1" 1000 ([] ++ JS.Parsed Examples.bob_y :: []) 2000 [] 3000)
  = Form.draw ["A"; "B"; "C"] "alice" (Form.mkWorld "s1" 1000 ([] ++ []) 2000 [] 3000).
Proof.
  apply (runGiveaway_unaffected_by_unopened_commitment ["A"; "B"; "C"] "alice" "s1"
           [] [] [] Examples.bob_y 1000 2000 3000).
  intros r Hr [A _]. vm_compute in Hr. destruct Hr as [<-|[]]. discriminate A.
Defined.

Lemma Permutation_filter {A : Type} (f : A -> bool) (xs ys : list A) :
  Permutation xs ys -> Permutation (filter f xs) (filter f ys).
Proof.
  induction 1 as [|x xs ys _ IH|x y xs|xs ys zs _ IH1 _ IH2]; cbn [filter].
  - constructor.
  - destruct (f x); [now constructor | exact IH].
  - destruct (f x), (f y); try reflexivity. apply perm_swap.
  - now transitivity (filter f ys).
Qed.

Lemma form_keeps_permutation (xs ys : list Form.Commitment) (r : Form.Reveal) :
  Permutation xs ys -> form_keeps xs r = form_keeps ys r.
Proof.
  intros P. unfold form_keeps. apply Bool.eq_iff_eq_true. rewrite !existsb_exists.
  split; intros (c & Hc & K); exists c; (split; [|exact K]).
  - eapply Permutation_in; eassumption.
  - eapply Permutation_in; [symmetry|]; eassumption.
Qed.

(** X17.  The result of [runGiveaway] does not depend on the order in which
    the commitments and the reveals of the others were delivered: two runs
    that heard the same messages in different orders publish the same seed
    and the same winner. *)
Theorem runGiveaway_order_independent
    (participantList : list string) (address secret : string)
    (heard_commit heard_commit' : list (JS.inbound Form.Commitment))
    (heard_reveal heard_reveal' : list (JS.inbound Form.Reveal)) (t1 t2 t3 : Z) :
  Permutation heard_commit heard_commit' ->
  Permutation heard_reveal heard_reveal' ->
  Form.draw participantList address
    (Form.mkWorld secret t1 heard_commit t2 heard_reveal t3)
  = Form.draw participantList address
      (Form.mkWorld secret t1 heard_commit' t2 heard_reveal' t3).
Proof.
  intros Pc Pr. unfold Form.draw.
  destruct (form_collected address (Form.mkWorld secret t1 heard_commit t2 heard_reveal t3))
    as [C R].
  destruct (form_collected address (Form.mkWorld secret t1 heard_commit' t2 heard_reveal' t3))
    as [C' R'].
  rewrite C, R, C', R'.
  cbn [Form.heard_commit Form.heard_reveal Form.secret Form.now_commit Form.now_reveal
       Form.now_result].
  set (own_c := Form.mkCommitment _ _ _). set (own_r := Form.mkReveal _ _ _).
  set (fc := fun c => from_other address (Form.c_address c)).
  set (fr := fun r => from_other address (Form.r_address r)).
  assert (P : Permutation
                (Form.validReveals (own_c :: filter fc (parsed heard_commit))
                                   (own_r :: filter fr (parsed heard_reveal)))
                (Form.validReveals (own_c :: filter fc (parsed heard_commit'))
                                   (own_r :: filter fr (parsed heard_reveal')))).
  { rewrite !validReveals_filter.
    rewrite (filter_ext _ (form_keeps (own_c :: filter fc (parsed heard_commit')))).
    - apply Permutation_filter. constructor. apply Permutation_filter.
      unfold parsed. now apply Permutation_flat_map.
    - intros r. apply form_keeps_permutation. constructor. apply Permutation_filter.
      unfold parsed. now apply Permutation_flat_map. }
  now rewrite (form_seed_order_independent _ _ P).
Qed.

Lemma runGiveaway_order_independent_witness :
  Form.draw ["A"; "B"; "C"] "alice"
    (Form.mkWorld "s1" 1000 [JS.Parsed Examples.bob_y; JS.Parsed Examples.bob_z] 2000
                  [JS.Parsed Examples.bob_reveals_z; JS.Unparsable] 3000)
  = Form.draw ["A"; "B"; "C"] "alice"
      (Form.mkWorld "s1" 1000 [JS.Parsed Examples.bob_z; JS.Parsed Examples.bob_y] 2000
                    [JS.Unparsable; JS.Parsed Examples.bob_reveals_z] 3000).
Proof.
  apply (runGiveaway_order_independent ["A"; "B"; "C"] "alice" "s1"); apply perm_swap.
Defined.

(** X18.  A commitment from a sender none of whose reveals was collected
    changes neither the valid reveals, nor the seed, nor the winner of
    [selectWinner], wherever among the commitments it is delivered. *)
Theorem selectWinner_unaffected_by_unopened_commitment
    (ps : list string) (organizerAddress secret : string)
    (before after heard_reveal : list (JS.inbound Library.wire))
    (c : Library.CommitMessage) (t1 t2 t3 t4 : Z) :
  (forall r,
      In r (Library.collected_reveals organizerAddress
              (Library.mkWorld secret t1 (before ++ after) t2 heard_reveal t3 t4)) ->
      Library.rm_participantId r <> Library.cm_participantId c) ->
  let without :=
    Library.mkWorld secret t1 (before ++ after) t2 heard_reveal t3 t4 in
  let with_c :=
    Library.mkWorld secret t1 (before ++ JS.Parsed (Library.CommitData c) :: after)
                    t2 heard_reveal t3 t4 in
  Library.verifyReveals (Library.collected_commits organizerAddress with_c)
                        (Library.collected_reveals organizerAddress with_c)
  = Library.verifyReveals (Library.collected_commits organizerAddress without)
                          (Library.collected_reveals organizerAddress without)
  /\ randomSeed (Library.selectWinner ps organizerAddress with_c)
     = randomSeed (Library.selectWinner ps organizerAddress without)
  /\ winner (Library.selectWinner ps organizerAddress with_c)
     = winner (Library.selectWinner ps organizerAddress without).
Proof.
  intros H without with_c. subst without with_c.
  set (without := Library.mkWorld secret t1 (before ++ after) t2 heard_reveal t3 t4) in *.
  set (with_c := Library.mkWorld secret t1 (before ++ JS.Parsed (Library.CommitData c) :: after)
                   t2 heard_reveal t3 t4).
  assert (E : Library.verifyReveals (Library.collected_commits organizerAddress with_c)
                                    (Library.collected_reveals organizerAddress with_c)
              = Library.verifyReveals (Library.collected_commits organizerAddress without)
                                      (Library.collected_reveals organizerAddress without)).
  { destruct (library_collected organizerAddress with_c) as [C R].
    destruct (library_collected organizerAddress without) as [C' R'].
    rewrite R' in H. rewrite C, R, C', R'. subst without with_c.
    cbn [Library.heard_commit Library.heard_reveal Library.ourSecret Library.now_commit
         Library.now_reveal] in *.
    rewrite accepted_commits_insert, (proj1 (accepted_app before after)).
    rewrite !verifyReveals_filter.
    destruct (String.eqb (Library.cm_commitment c) ""); [reflexivity|].
    apply filter_ext_in. intros reveal Hr. unfold library_keeps.
    cbn [app]. rewrite !app_comm_cons.
    rewrite find_skip; [reflexivity|].
    apply String.eqb_neq. intros Eq. now apply (H reveal Hr). }
  split; [exact E|]. unfold Library.selectWinner. cbn [randomSeed winner]. now rewrite E.
Qed.

Lemma selectWinner_unaffected_by_unopened_commitment_witness :
  let without :=
    Library.mkWorld "s1" 1000 ([Examples.commit_of "bob" "x" 1001] ++ []) 2000
                    [Examples.reveal_of "bob" "x" 2001] 3000 3001 in
  let with_c :=
    Library.mkWorld "s1" 1000
      ([Examples.commit_of "bob" "x" 1001]
       ++ JS.Parsed (Library.CommitData (Library.mkCommit "carol" "c0ffee" 1002)) :: [])
      2000 [Examples.reveal_of "bob" "x" 2001] 3000 3001 in
  Library.verifyReveals (Library.collected_commits "alice" with_c)
                        (Library.collected_reveals "alice" with_c)
  = Library.verifyReveals (Library.collected_commits "alice" without)
                          (Library.collected_reveals "alice" without)
  /\ randomSeed (Library.selectWinner ["A"; "B"; "C"] "alice" with_c)
     = randomSeed (Library.selectWinner ["A"; "B"; "C"] "alice" without)
  /\ winner (Library.selectWinner ["A"; "B"; "C"] "alice" with_c)
     = winner (Library.selectWinner ["A"; "B"; "C"] "alice" without).
Proof.
  apply (selectWinner_unaffected_by_unopened_commitment ["A"; "B"; "C"] "alice" "s1"
           [Examples.commit_of "bob" "x" 1001] [] [Examples.reveal_of "bob" "x" 2001]
           (Library.mkCommit "carol" "c0ffee" 1002) 1000 2000 3000 3001).
  intros r Hr. vm_compute in Hr. destruct Hr as [<-|[<-|[]]]; discriminate.
Defined.

(** ** The address shown in the wallet panel *)

Lemma substring_prefix (p q : string) :
  String.substring 0 (String.length p) (String.append p q) = p.
Proof.
  induction p as [|c p IH]; cbn [String.length String.append String.substring].
  - now destruct q.
  - now rewrite IH.
Qed.

Lemma substring_skip (p q : string) (n m : nat) :
  String.substring (String.length p + n) m (String.append p q) = String.substring n m q.
Proof.
  induction p as [|c p IH]; cbn [String.length String.append Nat.add String.substring];
    [reflexivity | exact IH].
Qed.

Lemma substring_whole (s : string) : String.substring 0 (String.length s) s = s.
Proof.
  induction s as [|c s IH]; cbn [String.length String.substring]; [reflexivity|].
  now rewrite IH.
Qed.

Lemma substring_short (s : string) (n : nat) :
  (String.length s <= n)%nat -> String.substring 0 n s = s.
Proof.
  revert n. induction s as [|c s IH]; intros n H.
  - now destruct n.
  - destruct n as [|n]; cbn [String.length] in H; [lia|].
    cbn [String.substring]. rewrite IH by lia. reflexivity.
Qed.

Lemma length_append (p q : string) :
  String.length (String.append p q) = (String.length p + String.length q)%nat.
Proof. induction p as [|c p IH]; cbn [String.append String.length]; [reflexivity | now rewrite IH]. Qed.

(** X19.  The wallet panel shows an address of twenty characters or more
    as its first twelve characters, three dots and its last eight
    characters, whatever lies between them. *)
Theorem shown_address_keeps_both_ends (head middle tail : string) :
  String.length head = 12%nat ->
  String.length tail = 8%nat ->
  Wallet.shown (String.append head (String.append middle tail))
  = String.append head (String.append "..." tail).
Proof.
  intros Hh Ht. unfold Wallet.shown, Wallet.slice_tail, JS.slice.
  cbn [Nat.sub]. rewrite <- Hh at 1. rewrite substring_prefix. f_equal. f_equal.
  rewrite !length_append, Ht.
  replace (String.length head + (String.length middle + 8) - 8)%nat
    with (String.length head + (String.length middle + 0))%nat by lia.
  rewrite substring_skip, substring_skip, <- Ht. apply substring_whole.
Qed.

Lemma shown_address_keeps_both_ends_witness :
  Wallet.shown (String.append "inj1qwertyui" (String.append "opasdfghjklzxcvbnm1234" "56789abc"))
  = String.append "inj1qwertyui" (String.append "..." "56789abc").
Proof.
  apply (shown_address_keeps_both_ends "inj1qwertyui" "opasdfghjklzxcvbnm1234" "56789abc");
    reflexivity.
Defined.

(** X20.  The wallet panel shows no address line for the empty address.
    A non-empty address of at most eight characters is shown whole on both
    sides of the dots: the two slices overlap. *)
Theorem shown_address_short (address : string) :
  address <> "" ->
  (String.length address <= 8)%nat ->
  Wallet.address_line address
  = Some (String.append address (String.append "..." address))
  /\ Wallet.address_line "" = None.
Proof.
  intros Hne H. split; [|reflexivity].
  unfold Wallet.address_line.
  destruct (String.eqb_spec address "") as [E|_]; [contradiction|].
  f_equal. unfold Wallet.shown, Wallet.slice_tail, JS.slice. cbn [Nat.sub].
  replace (String.length address - 8)%nat with 0%nat by lia.
  now rewrite !substring_short by lia.
Qed.

Lemma shown_address_short_witness :
  Wallet.address_line "inj1" = Some (String.append "inj1" (String.append "..." "inj1"))
  /\ Wallet.address_line "" = None.
Proof.
  apply (shown_address_short "inj1"); [discriminate | vm_compute; lia].
Defined.

(** ** More on the verification loops *)

(** X21.  A reveal that would not be valid on its own against the collected
    commitments (no collected commitment has both its sender and the hash of
    its secret) changes nothing in [runGiveaway], wherever among the reveals
    it is delivered. *)
Theorem runGiveaway_unaffected_by_invalid_reveal
    (participantList : list string) (address secret : string)
    (heard_commit : list (JS.inbound Form.Commitment))
    (before after : list (JS.inbound Form.Reveal)) (r : Form.Reveal) (t1 t2 t3 : Z) :
  ~ In r (Form.validReveals
            (Form.collected_commitments address
               (Form.mkWorld secret t1 heard_commit t2 (before ++ after) t3))
            [r]) ->
  Form.draw participantList address
    (Form.mkWorld secret t1 heard_commit t2 (before ++ JS.Parsed r :: after) t3)
  = Form.draw participantList address
      (Form.mkWorld secret t1 heard_commit t2 (before ++ after) t3).
Proof.
  intros H. unfold Form.draw.
  destruct (form_collected address
              (Form.mkWorld secret t1 heard_commit t2 (before ++ JS.Parsed r :: after) t3))
    as [C R].
  destruct (form_collected address
              (Form.mkWorld secret t1 heard_commit t2 (before ++ after) t3)) as [C' R'].
  rewrite C' in H. rewrite C, R, C', R'.
  cbn [Form.heard_commit Form.heard_reveal Form.secret Form.now_commit Form.now_reveal
       Form.now_result] in *.
  set (commitments := _ :: filter _ (parsed heard_commit)) in *.
  assert (K : form_keeps commitments r = false).
  { rewrite validReveals_filter in H. cbn [filter] in H.
    destruct (form_keeps commitments r); [exfalso; apply H; now left | reflexivity]. }
  assert (E : Form.validReveals commitments
                (Form.mkReveal address secret t2
                 :: filter (fun x => from_other address (Form.r_address x))
                           (parsed (before ++ JS.Parsed r :: after)))
              = Form.validReveals commitments
                  (Form.mkReveal address secret t2
                   :: filter (fun x => from_other address (Form.r_address x))
                             (parsed (before ++ after)))).
  { rewrite !validReveals_filter, parsed_insert, parsed_app, !filter_app. cbn [filter].
    destruct (from_other address (Form.r_address r)); [|reflexivity].
    cbn [filter]. rewrite !filter_app. cbn [filter]. now rewrite K. }
  now rewrite E.
Qed.

Lemma runGiveaway_unaffected_by_invalid_reveal_witness :
  Form.draw ["A"; "B"; "C"] "alice"
    (Form.mkWorld "s1" 1000 [JS.Parsed Examples.bob_y] 2000
                  ([] ++ JS.Parsed Examples.bob_reveals_z :: []) 3000)
  = Form.draw ["A"; "B"; "C"] "alice"
      (Form.mkWorld "s1" 1000 [JS.Parsed Examples.bob_y] 2000 ([] ++ []) 3000).
Proof.
  apply (runGiveaway_unaffected_by_invalid_reveal ["A"; "B"; "C"] "alice" "s1"
           [JS.Parsed Examples.bob_y] [] [] Examples.bob_reveals_z 1000 2000 3000).
  vm_compute. intros H. exact H.
Defined.

Lemma find_unique_key {A K : Type} (key : A -> K) (p : A -> bool) (xs : list A) (c : A) :
  NoDup (map key xs) ->
  (forall x y, p x = true -> p y = true -> key x = key y) ->
  In c xs -> p c = true -> find p xs = Some c.
Proof.
  intros N Hp. induction xs as [|x xs IH]; intros Hc Pc; [contradiction|].
  cbn [map] in N. apply NoDup_cons_iff in N. destruct N as [Nx N].
  cbn [find]. destruct (p x) eqn:Px.
  - destruct Hc as [->|Hc]; [reflexivity|].
    exfalso. apply Nx. rewrite (Hp x c Px Pc). now apply in_map.
  - destruct Hc as [->|Hc]; [congruence|]. now apply IH.
Qed.

(** X22.  When no sender has two commitments, [verifyReveals] keeps a
    reveal exactly when some commitment has its sender and the hash of its
    secret (the condition the loop of [runGiveaway] tests), and the order of
    the commitments does not matter. *)
Theorem verifyReveals_with_unique_senders
    (commits commits' : list Library.CommitMessage) (reveals : list Library.RevealMessage) :
  NoDup (map Library.cm_participantId commits) ->
  Permutation commits commits' ->
  (forall reveal,
      In reveal (Library.verifyReveals commits reveals)
      <-> In reveal reveals
          /\ exists c, In c commits
                       /\ Library.cm_participantId c = Library.rm_participantId reveal
                       /\ Library.cm_commitment c
                          = Library.hashSecret (Library.rm_secret reveal))
  /\ Library.verifyReveals commits' reveals = Library.verifyReveals commits reveals.
Proof.
  intros N P.
  assert (K : forall cs reveal,
             NoDup (map Library.cm_participantId cs) ->
             (library_keeps cs reveal = true
              <-> exists c, In c cs
                            /\ Library.cm_participantId c = Library.rm_participantId reveal
                            /\ Library.cm_commitment c
                               = Library.hashSecret (Library.rm_secret reveal))).
  { intros cs reveal Ncs. unfold library_keeps. split.
    - destruct (find _ cs) as [c|] eqn:F; [|discriminate].
      apply find_some in F. destruct F as [Hc Pc]. intros E.
      exists c. repeat split; [exact Hc | now apply String.eqb_eq |].
      symmetry. now apply String.eqb_eq.
    - intros (c & Hc & Pc & E).
      rewrite (find_unique_key Library.cm_participantId _ cs c Ncs).
      + apply String.eqb_eq. now symmetry.
      + intros x y Px Py. apply String.eqb_eq in Px, Py. congruence.
      + exact Hc.
      + now apply String.eqb_eq. }
  split.
  - intros reveal. rewrite verifyReveals_filter, filter_In, (K commits reveal N). reflexivity.
  - rewrite !verifyReveals_filter. apply filter_ext. intros reveal.
    assert (N' : NoDup (map Library.cm_participantId commits'))
      by (eapply Permutation_NoDup; [apply Permutation_map; exact P | exact N]).
    apply Bool.eq_iff_eq_true. rewrite (K commits' reveal N'), (K commits reveal N).
    split; intros (c & Hc & Rest); exists c; (split; [|exact Rest]).
    + eapply Permutation_in; [symmetry|]; eassumption.
    + eapply Permutation_in; eassumption.
Qed.

Lemma verifyReveals_with_unique_senders_witness :
  (forall reveal,
      In reveal (Library.verifyReveals
                   [Library.mkCommit "alice" "aa" 1; Library.mkCommit "bob" "bb" 2]
                   [Library.mkReveal "bob" "x" 3])
      <-> In reveal [Library.mkReveal "bob" "x" 3]
          /\ exists c, In c [Library.mkCommit "alice" "aa" 1; Library.mkCommit "bob" "bb" 2]
                       /\ Library.cm_participantId c = Library.rm_participantId reveal
                       /\ Library.cm_commitment c
                          = Library.hashSecret (Library.rm_secret reveal))
  /\ Library.verifyReveals
       [Library.mkCommit "bob" "bb" 2; Library.mkCommit "alice" "aa" 1]
       [Library.mkReveal "bob" "x" 3]
     = Library.verifyReveals
         [Library.mkCommit "alice" "aa" 1; Library.mkCommit "bob" "bb" 2]
         [Library.mkReveal "bob" "x" 3].
Proof.
  apply (verifyReveals_with_unique_senders
           [Library.mkCommit "alice" "aa" 1; Library.mkCommit "bob" "bb" 2]
           [Library.mkCommit "bob" "bb" 2; Library.mkCommit "alice" "aa" 1]
           [Library.mkReveal "bob" "x" 3]).
  - cbn [map Library.cm_participantId].
    constructor; [intros [H|[]]; discriminate H|].
    constructor; [intros []|constructor].
  - apply perm_swap.
Defined.


(** ** The valid-reveal set on one commitment per sender *)

Lemma library_keeps_unique_sender (commits : list Library.CommitMessage)
    (reveal : Library.RevealMessage) :
  NoDup (map Library.cm_participantId commits) ->
  (library_keeps commits reveal = true
   <-> exists c, In c commits
                 /\ Library.cm_participantId c = Library.rm_participantId reveal
                 /\ Library.cm_commitment c = Library.hashSecret (Library.rm_secret reveal)).
Proof.
  intros N. unfold library_keeps. split.
  - destruct (find _ commits) as [c|] eqn:F; [|discriminate].
    apply find_some in F. destruct F as [Hc Pc]. intros E.
    exists c. split; [exact Hc|]. split; [now apply String.eqb_eq|].
    symmetry. now apply String.eqb_eq.
  - intros (c & Hc & Pc & E).
    rewrite (find_unique_key Library.cm_participantId _ commits c N).
    + apply String.eqb_eq. now symmetry.
    + intros x y Px Py. apply String.eqb_eq in Px, Py. congruence.
    + exact Hc.
    + now apply String.eqb_eq.
Qed.

(** C4.  On a commitment set, which holds one commitment per sender,
    [verifyReveals] puts a reveal in the valid-reveal set if and only if it
    is one of the reveals and there is a recorded commitment with the same
    sender whose stored hash equals the hash recomputed from the secret of
    the reveal; the verification loop of [runGiveaway] does the same on every
    list of commitments.  In particular a reveal from a sender with no
    commitment is never in the valid-reveal set, and a reveal whose secret
    does not hash to the recorded commitment of its sender is excluded. *)
Theorem valid_reveals_iff_matching_commitment
    (commits : list Library.CommitMessage) (reveals : list Library.RevealMessage)
    (commitments : list Form.Commitment) (heard : list Form.Reveal) :
  NoDup (map Library.cm_participantId commits) ->
  (forall reveal,
      In reveal (Library.verifyReveals commits reveals)
      <-> In reveal reveals
          /\ exists c, In c commits
                       /\ Library.cm_participantId c = Library.rm_participantId reveal
                       /\ Library.cm_commitment c
                          = Library.hashSecret (Library.rm_secret reveal))
  /\ (forall reveal,
         In reveal (Form.validReveals commitments heard)
         <-> In reveal heard
             /\ exists c, In c commitments
                          /\ Form.c_address c = Form.r_address reveal
                          /\ Form.c_commitment c
                             = Form.generateCommitment (Form.r_secret reveal))
  /\ (forall reveal,
         (forall c, In c commits ->
                    Library.cm_participantId c <> Library.rm_participantId reveal) ->
         ~ In reveal (Library.verifyReveals commits reveals))
  /\ (forall reveal,
         (forall c, In c commits ->
                    Library.cm_participantId c = Library.rm_participantId reveal ->
                    Library.cm_commitment c
                    <> Library.hashSecret (Library.rm_secret reveal)) ->
         ~ In reveal (Library.verifyReveals commits reveals))
  /\ (forall reveal,
         (forall c, In c commitments ->
                    Form.c_address c = Form.r_address reveal ->
                    Form.c_commitment c
                    <> Form.generateCommitment (Form.r_secret reveal)) ->
         ~ In reveal (Form.validReveals commitments heard)).
Proof.
  intros N.
  assert (L : forall reveal,
             In reveal (Library.verifyReveals commits reveals)
             <-> In reveal reveals
                 /\ exists c, In c commits
                              /\ Library.cm_participantId c = Library.rm_participantId reveal
                              /\ Library.cm_commitment c
                                 = Library.hashSecret (Library.rm_secret reveal)).
  { intros reveal.
    rewrite verifyReveals_filter, filter_In, (library_keeps_unique_sender commits reveal N).
    reflexivity. }
  assert (F : forall reveal,
             In reveal (Form.validReveals commitments heard)
             <-> In reveal heard
                 /\ exists c, In c commitments
                              /\ Form.c_address c = Form.r_address reveal
                              /\ Form.c_commitment c
                                 = Form.generateCommitment (Form.r_secret reveal)).
  { intros reveal. rewrite validReveals_filter, filter_In. unfold form_keeps.
    rewrite existsb_exists.
    split; intros [Hin (c & Hc & H)]; (split; [exact Hin|]); exists c; (split; [exact Hc|]).
    - apply andb_prop in H. destruct H as [A B]. split; now apply String.eqb_eq.
    - destruct H as [A B]. apply andb_true_intro. split; now apply String.eqb_eq. }
  split; [exact L|]. split; [exact F|]. split; [|split].
  - intros reveal Hno Hin. apply L in Hin. destruct Hin as (_ & c & Hc & Pc & _).
    exact (Hno c Hc Pc).
  - intros reveal Hno Hin. apply L in Hin. destruct Hin as (_ & c & Hc & Pc & E).
    exact (Hno c Hc Pc E).
  - intros reveal Hno Hin. apply F in Hin. destruct Hin as (_ & c & Hc & Pc & E).
    exact (Hno c Hc Pc E).
Qed.

(** C4 on the collections of a run with three senders, each with one
    commitment and one reveal. *)
Lemma valid_reveals_iff_matching_commitment_witness :
  let commits := Library.collected_commits "alice" Examples.bob_then_carol in
  let reveals := Library.collected_reveals "alice" Examples.bob_then_carol in
  let commitments := Form.collected_commitments "alice" Examples.bob_once in
  let heard := Form.collected_reveals "alice" Examples.bob_once in
  (forall reveal,
      In reveal (Library.verifyReveals commits reveals)
      <-> In reveal reveals
          /\ exists c, In c commits
                       /\ Library.cm_participantId c = Library.rm_participantId reveal
                       /\ Library.cm_commitment c
                          = Library.hashSecret (Library.rm_secret reveal))
  /\ (forall reveal,
         In reveal (Form.validReveals commitments heard)
         <-> In reveal heard
             /\ exists c, In c commitments
                          /\ Form.c_address c = Form.r_address reveal
                          /\ Form.c_commitment c
                             = Form.generateCommitment (Form.r_secret reveal))
  /\ (forall reveal,
         (forall c, In c commits ->
                    Library.cm_participantId c <> Library.rm_participantId reveal) ->
         ~ In reveal (Library.verifyReveals commits reveals))
  /\ (forall reveal,
         (forall c, In c commits ->
                    Library.cm_participantId c = Library.rm_participantId reveal ->
                    Library.cm_commitment c
                    <> Library.hashSecret (Library.rm_secret reveal)) ->
         ~ In reveal (Library.verifyReveals commits reveals))
  /\ (forall reveal,
         (forall c, In c commitments ->
                    Form.c_address c = Form.r_address reveal ->
                    Form.c_commitment c
                    <> Form.generateCommitment (Form.r_secret reveal)) ->
         ~ In reveal (Form.validReveals commitments heard)).
Proof.
  apply (valid_reveals_iff_matching_commitment
           (Library.collected_commits "alice" Examples.bob_then_carol)
           (Library.collected_reveals "alice" Examples.bob_then_carol)
           (Form.collected_commitments "alice" Examples.bob_once)
           (Form.collected_reveals "alice" Examples.bob_once)).
  vm_compute.
  constructor; [intros [H|[H|[]]]; discriminate H|].
  constructor; [intros [H|[]]; discriminate H|].
  constructor; [intros []|constructor].
Defined.
